(** * Opportunity and Application lifecycle of VibhuAdvisorConnect

    A shallow embedding of the backend core: the JSON entity store of
    [services/dataService.js], the opportunities controller
    ([controllers/opportunitiesController.js]) and the LP retrieval path of
    [controllers/lpController.js].

    Modelling conventions:
    - a collection is the list parsed from its JSON file, in file order;
      every write replaces the whole collection (as [writeFile] does);
      writes are assumed to succeed;
    - ids are integers ([Z]); route parameters are taken after [parseInt];
    - a JSON field that may be absent or [null] is an [option];
    - strings are [String.string]; [toLowerCase] and [trim] act on ASCII;
    - timestamps ([createdAt], [updatedAt]) are integers; the store carries
      the current time [now];
    - an HTTP reply is a status code with either a value or a message. *)

From Stdlib Require Import String Ascii List ZArith Bool Lia Sorted Permutation.
Import ListNotations.
Open Scope string_scope.
Open Scope Z_scope.

(** ** JSON scalars

    A field that a request body may set to any JSON value holds one of
    these (an array or an object is not needed by the statements). *)

Inductive JVal : Type :=
| JNull
| JBool (b : bool)
| JNum (n : Z)
| JStr (s : string).
Coercion JStr : string >-> JVal.

(** ** JavaScript primitives *)

Module JS.

Definition lower_char (c : ascii) : ascii :=
  let n := nat_of_ascii c in
  if andb (Nat.leb 65 n) (Nat.leb n 90) then ascii_of_nat (n + 32) else c.

(** [s.toLowerCase()] *)
Fixpoint toLowerCase (s : string) : string :=
  match s with
  | EmptyString => EmptyString
  | String c s' => String (lower_char c) (toLowerCase s')
  end.

Fixpoint prefixb (p s : string) : bool :=
  match p, s with
  | EmptyString, _ => true
  | String _ _, EmptyString => false
  | String a p', String b s' => Ascii.eqb a b && prefixb p' s'
  end.

(** [s.includes(sub)] *)
Fixpoint includes (s sub : string) : bool :=
  prefixb sub s ||
  match s with
  | EmptyString => false
  | String _ s' => includes s' sub
  end.

Definition is_ws (c : ascii) : bool :=
  let n := nat_of_ascii c in
  orb (Nat.eqb n 32) (andb (Nat.leb 9 n) (Nat.leb n 13)).

Fixpoint trim_left (s : string) : string :=
  match s with
  | EmptyString => EmptyString
  | String c s' => if is_ws c then trim_left s' else s
  end.

Definition rev_string (s : string) : string :=
  string_of_list_ascii (rev (list_ascii_of_string s)).

(** [s.trim()] *)
Definition trim (s : string) : string :=
  rev_string (trim_left (rev_string (trim_left s))).

(** JavaScript truthiness of a string *)
Definition truthy (s : string) : bool := negb (String.eqb s "").

(** [Math.max(...xs, 0)] *)
Definition max0 (xs : list Z) : Z := fold_right Z.max 0 xs.

(** JavaScript truthiness of a JSON scalar *)
Definition truthy_val (v : JVal) : bool :=
  match v with
  | JNull => false
  | JBool b => b
  | JNum n => negb (n =? 0)
  | JStr s => truthy s
  end.

(** [v === s] for a string literal [s] *)
Definition str_eqb (v : JVal) (s : string) : bool :=
  match v with JStr s' => String.eqb s' s | _ => false end.

(** *** Numbers

    A JavaScript number is an IEEE 754 double.  The numbers of this core
    are integers (ids, counters) and, in the LP score, quotients of small
    integers; a double is kept as the exact value it denotes: an integer
    as [Z], a positive double as [(m, e)] denoting [m * 2^e]. *)

(** The integer nearest to [num / den] ([den > 0]), ties to the even one. *)
Definition round_ne (num den : Z) : Z :=
  let q := num / den in
  let r := num mod den in
  if 2 * r <? den then q
  else if den <? 2 * r then q + 1
  else if Z.even q then q else q + 1.

(** The double nearest to the integer [x] (53 significant bits, ties to
    even). *)
Definition round_double (x : Z) : Z :=
  let a := Z.abs x in
  let e := Z.log2 a - 52 in
  if e <=? 0 then x
  else Z.sgn x * (round_ne a (2 ^ e) * 2 ^ e).

(** [a + b] on integer doubles. *)
Definition add (a b : Z) : Z := round_double (a + b).

(** [num * 2^(-e) / den] as a fraction with integer terms. *)
Definition shift_ratio (num den e : Z) : Z * Z :=
  if e <=? 0 then (num * 2 ^ (- e), den) else (num, den * 2 ^ e).

(** The double nearest to the positive rational [num / den]: the
    exponent [e] puts [num / den * 2^(-e)] in [[2^52, 2^53)], and the
    mantissa is that quotient rounded to the nearest integer, ties to even. *)
Definition to_double (num den : Z) : Z * Z :=
  if num <=? 0 then (0, 0) else
  let e0 := Z.log2 num - Z.log2 den - 52 in
  let e := if 2 ^ 52 <=? (let '(n', d') := shift_ratio num den e0 in n' / d')
           then e0 else e0 - 1 in
  let '(n', d') := shift_ratio num den e in
  (round_ne n' d', e).

(** The value [m * 2^e] of a double as a fraction. *)
Definition frac (d : Z * Z) : Z * Z :=
  let '(m, e) := d in shift_ratio m 1 (- e).

(** [a / b] for integers [a >= 0], [b > 0]. *)
Definition div (a b : Z) : Z * Z := to_double a b.

(** [d * k] for an integer [k >= 0]. *)
Definition mul_int (d : Z * Z) (k : Z) : Z * Z :=
  let '(num, den) := frac d in to_double (num * k) den.

(** [Math.round(d)]: [floor(d + 1/2)]. *)
Definition round (d : Z * Z) : Z :=
  let '(num, den) := frac d in (2 * num + den) / (2 * den).

End JS.

(** ** Entities *)

Record User := mkUser {
  u_id : Z;
  role : string;
  firstName : string;
  lastName : string;
  email : string;
  expertise : option (list string);
  expertiseAreas : option (list string)
}.

Record Opportunity := mkOpportunity {
  id : Z;
  title : string;
  description : string;
  requiredExpertise : list string;
  expertiseNeeded : list string;
  timeCommitment : string;
  compensation : string;
  companyId : option Z;
  companyName : string;
  status : JVal;
  viewCount : option Z;
  applicantCount : option Z;
  opp_applications : option JVal;
  createdAt : Z;
  updatedAt : Z
}.

Record Application := mkApplication {
  app_id : Z;
  lpId : Z;
  lpName : string;
  lpEmail : string;
  opportunityId : Z;
  opportunityTitle : string;
  app_companyId : option Z;
  app_companyName : string;
  app_status : string;
  app_createdAt : Z;
  app_updatedAt : Z
}.

(** The four JSON files (connections are not touched by this core) and
    the clock. *)
Record Store := mkStore {
  users : list User;
  opportunities : list Opportunity;
  applications : list Application;
  now : Z
}.

(** An update object [{...}] spread over an opportunity: [Some v] for a key
    present in the object.  [up_applications] is the key [applications]
    (the interest counter, held in [opp_applications]). *)
Record OppUpdate := mkOppUpdate {
  up_id : option Z;
  up_title : option string;
  up_description : option string;
  up_requiredExpertise : option (list string);
  up_expertiseNeeded : option (list string);
  up_timeCommitment : option string;
  up_compensation : option string;
  up_companyId : option (option Z);
  up_companyName : option string;
  up_status : option JVal;
  up_viewCount : option (option Z);
  up_applicantCount : option (option Z);
  up_applications : option JVal;
  up_createdAt : option Z
}.

Definition no_updates : OppUpdate :=
  mkOppUpdate None None None None None None None None None None None None None None.

(** [{ applicantCount: n }] *)
Definition upd_applicantCount (n : Z) : OppUpdate :=
  mkOppUpdate None None None None None None None None None None None
    (Some (Some n)) None None.

(** [{ viewCount: n }] *)
Definition upd_viewCount (n : Z) : OppUpdate :=
  mkOppUpdate None None None None None None None None None None
    (Some (Some n)) None None None.

Definition pick {A} (u : option A) (old : A) : A :=
  match u with Some v => v | None => old end.

(** [{ ...o, ...u, updatedAt: t }] *)
Definition merge (o : Opportunity) (u : OppUpdate) (t : Z) : Opportunity :=
  mkOpportunity
    (pick (up_id u) (id o))
    (pick (up_title u) (title o))
    (pick (up_description u) (description o))
    (pick (up_requiredExpertise u) (requiredExpertise o))
    (pick (up_expertiseNeeded u) (expertiseNeeded o))
    (pick (up_timeCommitment u) (timeCommitment o))
    (pick (up_compensation u) (compensation o))
    (pick (up_companyId u) (companyId o))
    (pick (up_companyName u) (companyName o))
    (pick (up_status u) (status o))
    (pick (up_viewCount u) (viewCount o))
    (pick (up_applicantCount u) (applicantCount o))
    (match up_applications u with Some v => Some v | None => opp_applications o end)
    (pick (up_createdAt u) (createdAt o))
    t.

Definition set_opportunities (st : Store) (l : list Opportunity) : Store :=
  mkStore (users st) l (applications st) (now st).

Definition set_applications (st : Store) (l : list Application) : Store :=
  mkStore (users st) (opportunities st) l (now st).

(** Fields an opportunity is created from ([opportunityData]); it carries
    no [id] key. *)
Record OpportunityData := mkOpportunityData {
  d_title : string;
  d_description : string;
  d_requiredExpertise : list string;
  d_expertiseNeeded : list string;
  d_timeCommitment : string;
  d_compensation : string;
  d_companyId : option Z;
  d_companyName : string;
  d_status : option string;
  d_viewCount : option Z;
  d_applicantCount : option Z
}.

(** Fields an application is created from ([applicationData]). *)
Record ApplicationData := mkApplicationData {
  ad_lpId : Z;
  ad_lpName : string;
  ad_lpEmail : string;
  ad_opportunityId : Z;
  ad_opportunityTitle : string;
  ad_companyId : option Z;
  ad_companyName : string
}.

(** ** The entity store ([services/dataService.js]) *)

Module DataService.

Definition getUserById (st : Store) (uid : Z) : option User :=
  find (fun u => u_id u =? uid) (users st).

Definition getOpportunityById (st : Store) (oid : Z) : option Opportunity :=
  find (fun o => id o =? oid) (opportunities st).

(** [findIndex] followed by an assignment at that index. *)
Fixpoint replace_first (oid : Z) (f : Opportunity -> Opportunity)
    (l : list Opportunity) : option Opportunity * list Opportunity :=
  match l with
  | [] => (None, [])
  | o :: l' =>
      if id o =? oid then (Some (f o), f o :: l')
      else let '(r, l'') := replace_first oid f l' in (r, o :: l'')
  end.

Definition updateOpportunity (st : Store) (oid : Z) (u : OppUpdate)
    : option Opportunity * Store :=
  match replace_first oid (fun o => merge o u (now st)) (opportunities st) with
  | (None, _) => (None, st)
  | (Some o, l) => (Some o, set_opportunities st l)
  end.

Definition deleteOpportunity (st : Store) (oid : Z) : bool * Store :=
  let filtered := filter (fun o => negb (id o =? oid)) (opportunities st) in
  if Nat.eqb (length filtered) (length (opportunities st)) then (false, st)
  else (true, set_opportunities st filtered).

Definition createOpportunity (st : Store) (d : OpportunityData)
    : Opportunity * Store :=
  let newId := JS.add (JS.max0 (map id (opportunities st))) 1 in
  let o := mkOpportunity newId (d_title d) (d_description d)
             (d_requiredExpertise d) (d_expertiseNeeded d)
             (d_timeCommitment d) (d_compensation d) (d_companyId d)
             (d_companyName d)
             (JStr (match d_status d with
                    | Some s => if JS.truthy s then s else "open"
                    | None => "open" end))
             (d_viewCount d) (d_applicantCount d) (Some (JNum 0))
             (now st) (now st) in
  (o, set_opportunities st (opportunities st ++ [o])).

Definition getApplicationsByOpportunity (st : Store) (oid : Z)
    : list Application :=
  filter (fun a => opportunityId a =? oid) (applications st).

Definition hasApplied (st : Store) (lp oid : Z) : bool :=
  existsb (fun a => (lpId a =? lp) && (opportunityId a =? oid))
    (applications st).

(** No handler sets an application id from a request body: the ids are
    the ones this function writes, each one more than the largest, and the
    sum is taken exactly (it is the double sum while the ids stay below
    [2^53]). *)
Definition createApplication (st : Store) (d : ApplicationData)
    : Application * Store :=
  let newId := JS.max0 (map app_id (applications st)) + 1 in
  let a := mkApplication newId (ad_lpId d) (ad_lpName d) (ad_lpEmail d)
             (ad_opportunityId d) (ad_opportunityTitle d) (ad_companyId d)
             (ad_companyName d) "pending" (now st) (now st) in
  (a, set_applications st (applications st ++ [a])).

Definition syncOpportunityApplicantCount (st : Store) (oid : Z) : Z * Store :=
  let actualCount := Z.of_nat (length (getApplicationsByOpportunity st oid)) in
  (actualCount, snd (updateOpportunity st oid (upd_applicantCount actualCount))).

Fixpoint replace_first_app (aid : Z) (f : Application -> Application)
    (l : list Application) : option Application * list Application :=
  match l with
  | [] => (None, [])
  | a :: l' =>
      if app_id a =? aid then (Some (f a), f a :: l')
      else let '(r, l'') := replace_first_app aid f l' in (r, a :: l'')
  end.

(** [updateApplication(id, { status })], the only update object the core
    passes. *)
Definition updateApplication (st : Store) (aid : Z) (s : string)
    : option Application * Store :=
  let f a := mkApplication (app_id a) (lpId a) (lpName a) (lpEmail a)
               (opportunityId a) (opportunityTitle a) (app_companyId a)
               (app_companyName a) s (app_createdAt a) (now st) in
  match replace_first_app aid f (applications st) with
  | (None, _) => (None, st)
  | (Some a, l) => (Some a, set_applications st l)
  end.

End DataService.

(** ** HTTP replies *)

Inductive Reply (A : Type) : Type :=
| Ok (code : Z) (v : A)
| Err (code : Z) (msg : string).
Arguments Ok {A} code v.
Arguments Err {A} code msg.

(** ** The opportunities controller ([controllers/opportunitiesController.js]) *)

Module Opportunities.
Import DataService.

(** [opportunity.companyId !== user.id && user.role !== 'Admin'] *)
Definition denied (o : Opportunity) (u : User) : bool :=
  negb (match companyId o with Some c => c =? u_id u | None => false end)
  && negb (String.eqb (role u) "Admin").

(** [!x || !x.trim()] fails; otherwise [x.trim()]. *)
Definition required (x : option string) : option string :=
  match x with
  | Some s => if JS.truthy (JS.trim s) then Some (JS.trim s) else None
  | None => None
  end.

(** The body of a full update; [b_requiredExpertise] is [None] when the key
    is absent or not an array. *)
Record UpdateBody := mkUpdateBody {
  b_title : option string;
  b_description : option string;
  b_requiredExpertise : option (list string);
  b_timeCommitment : option string;
  b_compensation : option string
}.

(** [PUT /api/opportunities/:id] *)
Definition updateOpportunity (st : Store) (uid oid : Z) (b : UpdateBody)
    : Reply Opportunity * Store :=
  let user := getUserById st uid in
  let opportunity := getOpportunityById st oid in
  match user with
  | None => (Err 404 "User not found", st)
  | Some u =>
  if negb (String.eqb (role u) "Company")
  then (Err 403 "Access denied. Company role required.", st) else
  match opportunity with
  | None => (Err 404 "Opportunity not found", st)
  | Some o =>
  if denied o u
  then (Err 403 "Access denied. You can only update your own opportunities.", st) else
  match required (b_title b) with
  | None => (Err 400 "Title is required", st)
  | Some t =>
  match required (b_description b) with
  | None => (Err 400 "Description is required", st)
  | Some d =>
  match b_requiredExpertise b with
  | None | Some [] =>
      (Err 400 "At least one area of required expertise is needed", st)
  | Some re =>
  match required (b_timeCommitment b) with
  | None => (Err 400 "Time commitment is required", st)
  | Some tc =>
  match required (b_compensation b) with
  | None => (Err 400 "Compensation details are required", st)
  | Some c =>
  let updateData :=
    mkOppUpdate None (Some t) (Some d)
      (Some (filter (fun e => JS.truthy (JS.trim e)) re)) None
      (Some tc) (Some c) None None None None None None None in
  match DataService.updateOpportunity st oid updateData with
  | (None, st') => (Err 500 "Failed to update opportunity", st')
  | (Some o', st') => (Ok 200 o', st')
  end end end end end end end end.

Definition valid_opp_status (s : string) : bool :=
  existsb (String.eqb s) ["open"; "closed"; "filled"].

(** [['open', 'closed', 'filled'].includes(v)] *)
Definition valid_opp_status_val (v : JVal) : bool :=
  match v with JStr s => valid_opp_status s | _ => false end.

(** [PATCH /api/opportunities/:id]: the request body is spread over the
    record as it is.  An unknown user makes [user.id] throw, which the
    handler's [catch] turns into a 500. *)
Definition patchOpportunity (st : Store) (uid oid : Z) (updates : OppUpdate)
    : Reply Opportunity * Store :=
  let user := getUserById st uid in
  let opportunity := getOpportunityById st oid in
  match opportunity with
  | None => (Err 404 "Opportunity not found", st)
  | Some o =>
  match user with
  | None => (Err 500 "Server error updating opportunity", st)
  | Some u =>
  if denied o u
  then (Err 403 "Access denied. You can only update your own opportunities.", st) else
  if match up_status updates with
     | Some v => JS.truthy_val v && negb (valid_opp_status_val v)
     | None => false end
  then (Err 400 "Invalid status. Must be one of: open, closed, filled", st) else
  match DataService.updateOpportunity st oid updates with
  | (None, st') => (Err 500 "Failed to update opportunity", st')
  | (Some o', st') => (Ok 200 o', st')
  end end end.

(** [DELETE /api/opportunities/:id] *)
Definition deleteOpportunity (st : Store) (uid oid : Z) : Reply string * Store :=
  let user := getUserById st uid in
  let opportunity := getOpportunityById st oid in
  match opportunity with
  | None => (Err 404 "Opportunity not found", st)
  | Some o =>
  match user with
  | None => (Err 500 "Server error deleting opportunity", st)
  | Some u =>
  if denied o u
  then (Err 403 "Access denied. You can only delete your own opportunities.", st) else
  match DataService.deleteOpportunity st oid with
  | (false, st') => (Err 500 "Failed to delete opportunity", st')
  | (true, st') => (Ok 200 "Opportunity deleted successfully", st')
  end end end.

(** [POST /api/opportunities/:id/view]: the caller is only logged. *)
Definition trackOpportunityView (st : Store) (caller oid : Z) : Reply Z * Store :=
  match getOpportunityById st oid with
  | None => (Err 404 "Opportunity not found", st)
  | Some o =>
      let newViewCount :=
        JS.add match viewCount o with Some v => v | None => 0 end 1 in
      let st' := snd (DataService.updateOpportunity st oid (upd_viewCount newViewCount)) in
      (Ok 200 newViewCount, st')
  end.

(** [POST /api/opportunities/:id/apply]; the reply carries [applicationId]. *)
Definition applyToOpportunity (st : Store) (uid oid : Z) : Reply Z * Store :=
  match getUserById st uid with
  | None => (Err 404 "User not found", st)
  | Some u =>
  if negb (String.eqb (role u) "LP")
  then (Err 403 "Access denied. Only LP users can apply to opportunities.", st) else
  match getOpportunityById st oid with
  | None => (Err 404 "Opportunity not found", st)
  | Some o =>
  if negb (JS.str_eqb (status o) "open")
  then (Err 400 "This opportunity is not open for applications", st) else
  if hasApplied st (u_id u) oid
  then (Err 400 "You have already applied to this opportunity", st) else
  let applicationData :=
    mkApplicationData (u_id u) (firstName u ++ " " ++ lastName u) (email u)
      oid (title o) (companyId o) (companyName o) in
  let '(newApplication, st1) := createApplication st applicationData in
  let st2 := snd (syncOpportunityApplicantCount st1 oid) in
  (Ok 201 (app_id newApplication), st2)
  end end.

Definition valid_app_status (s : string) : bool :=
  existsb (String.eqb s) ["pending"; "reviewed"; "accepted"; "rejected"].

(** [PATCH /api/applications/:id] with body [{ status }]. *)
Definition updateApplicationStatus (st : Store) (uid aid : Z) (s : option string)
    : Reply Application * Store :=
  match getUserById st uid with
  | None => (Err 404 "User not found", st)
  | Some u =>
  if negb (String.eqb (role u) "Company") && negb (String.eqb (role u) "Admin")
  then (Err 403 "Access denied. Company role required.", st) else
  match s with
  | Some s' =>
    if negb (JS.truthy s') || negb (valid_app_status s')
    then (Err 400 "Invalid status. Must be one of: pending, reviewed, accepted, rejected", st) else
    match find (fun a => app_id a =? aid) (applications st) with
    | None => (Err 404 "Application not found", st)
    | Some a =>
    match getOpportunityById st (opportunityId a) with
    | None => (Err 404 "Associated opportunity not found", st)
    | Some o =>
    if denied o u
    then (Err 403 "Access denied. You can only update applications for your own opportunities.", st) else
    match updateApplication st aid s' with
    | (None, st') => (Err 500 "Failed to update application", st')
    | (Some a', st') => (Ok 200 a', st')
    end end end
  | None => (Err 400 "Invalid status. Must be one of: pending, reviewed, accepted, rejected", st)
  end end.

End Opportunities.

(** ** Listing reads *)

Module Listing.
Import DataService.

(** [arr.sort((a, b) => key(b) - key(a))]: a stable sort, greatest key
    first (insertion sort; equal keys keep their input order). *)
Fixpoint insert_desc {A} (key : A -> Z) (x : A) (l : list A) : list A :=
  match l with
  | [] => [x]
  | y :: ys => if key y <=? key x then x :: y :: ys else y :: insert_desc key x ys
  end.

Fixpoint sort_desc {A} (key : A -> Z) (l : list A) : list A :=
  match l with
  | [] => []
  | x :: l' => insert_desc key x (sort_desc key l')
  end.

(** The in-memory assignment [opportunity.applicantCount = n]. *)
Definition set_applicantCount (o : Opportunity) (n : Z) : Opportunity :=
  mkOpportunity (id o) (title o) (description o) (requiredExpertise o)
    (expertiseNeeded o) (timeCommitment o) (compensation o) (companyId o)
    (companyName o) (status o) (viewCount o) (Some n) (opp_applications o)
    (createdAt o) (updatedAt o).

(** The body of the loop [for (let opportunity of opportunities) { ... }]
    shared by both listings: the actual count, and the store after the
    stored record is rewritten when [opportunity.applicantCount || 0]
    differs from it. *)
Definition syncOne (st : Store) (o : Opportunity) : Z * Store :=
  let actualCount := Z.of_nat (length (getApplicationsByOpportunity st (id o))) in
  let currentStoredCount :=
    match applicantCount o with Some n => n | None => 0 end in
  (actualCount,
   if currentStoredCount =? actualCount then st
   else snd (updateOpportunity st (id o) (upd_applicantCount actualCount))).

(** The loop itself: each returned copy gets the actual count. *)
Fixpoint syncCounts (st : Store) (l : list Opportunity)
    : list Opportunity * Store :=
  match l with
  | [] => ([], st)
  | o :: l' =>
      let '(actualCount, st1) := syncOne st o in
      let '(r, st2) := syncCounts st1 l' in
      (set_applicantCount o actualCount :: r, st2)
  end.

(** [req.query]; an absent key is [None]. *)
Record Query := mkQuery {
  q_status : option string;
  q_expertise : option string;
  q_timeCommitment : option string;
  q_search : option string
}.

Definition owned_by (o : Opportunity) (uid : Z) : bool :=
  match companyId o with Some c => c =? uid | None => false end.

(** The filter steps of [getOpportunities], before sorting. *)
Definition filterOpportunities (user : option User) (q : Query)
    (ops : list Opportunity) : list Opportunity :=
  let ops1 :=
    match user with
    | Some u => if String.eqb (role u) "Company"
                then filter (fun o => negb (owned_by o (u_id u))) ops else ops
    | None => ops
    end in
  (* const { status = 'open' } = req.query *)
  let st_q := match q_status q with Some s => s | None => "open" end in
  let ops2 :=
    if JS.truthy st_q && negb (String.eqb st_q "all")
    then filter (fun o => JS.str_eqb (status o) st_q) ops1 else ops1 in
  let ops3 :=
    match q_expertise q with
    | Some e =>
        if JS.truthy e && negb (String.eqb e "All")
        then filter (fun o => existsb (fun x =>
               JS.includes (JS.toLowerCase x) (JS.toLowerCase e))
               (requiredExpertise o)) ops2
        else ops2
    | None => ops2
    end in
  let ops4 :=
    match q_timeCommitment q with
    | Some t =>
        if JS.truthy t && negb (String.eqb t "All")
        then filter (fun o => JS.truthy (timeCommitment o) &&
               JS.includes (JS.toLowerCase (timeCommitment o)) (JS.toLowerCase t)) ops3
        else ops3
    | None => ops3
    end in
  match q_search q with
  | Some s =>
      if JS.truthy s then
        let searchLower := JS.toLowerCase s in
        filter (fun o =>
          (JS.truthy (title o) && JS.includes (JS.toLowerCase (title o)) searchLower) ||
          (JS.truthy (description o) && JS.includes (JS.toLowerCase (description o)) searchLower) ||
          (JS.truthy (companyName o) && JS.includes (JS.toLowerCase (companyName o)) searchLower))
          ops4
      else ops4
  | None => ops4
  end.

(** [GET /api/opportunities]: each returned opportunity with its
    [hasApplied] flag (present for LP callers only). *)
Definition getOpportunities (st : Store) (uid : Z) (q : Query)
    : list (Opportunity * option bool) * Store :=
  let user := getUserById st uid in
  let ops := filterOpportunities user q (opportunities st) in
  let ops := sort_desc createdAt ops in
  let '(ops, st') := syncCounts st ops in
  let flags :=
    match user with
    | Some u => if String.eqb (role u) "LP"
                then map (fun o => (o, Some (hasApplied st' (u_id u) (id o)))) ops
                else map (fun o => (o, None)) ops
    | None => map (fun o => (o, None)) ops
    end in
  (flags, st').

(** [GET /api/company/opportunities] (the [getCompanyOpportunities] handler). *)
Definition getCompanyOpportunities (st : Store) (uid : Z)
    : Reply (list Opportunity) * Store :=
  match getUserById st uid with
  | None => (Err 404 "User not found", st)
  | Some u =>
  if negb (String.eqb (role u) "Company")
  then (Err 403 "Access denied. Company role required.", st) else
  let companyOpportunities :=
    filter (fun o => owned_by o (u_id u)) (opportunities st) in
  let '(ops, st') := syncCounts st companyOpportunities in
  (Ok 200 (sort_desc createdAt ops), st')
  end.

End Listing.

(** ** LP retrieval path ([controllers/lpController.js], [getOpportunities]) *)

Module LP.

(** [{ ...opp, matchScore, isRelevant }] *)
Record Scored := mkScored {
  sc_opp : Opportunity;
  matchScore : Z;
  isRelevant : bool
}.

(** [user.expertise || user.expertiseAreas || []] *)
Definition userExpertiseOf (u : User) : list string :=
  match expertise u with
  | Some l => l
  | None => match expertiseAreas u with Some l => l | None => [] end
  end.

(** [userExpertise.some(userSkill => userSkill includes skill, or skill
    includes userSkill)], case-insensitively. *)
Definition skill_matches (userExpertise : list string) (skill : string) : bool :=
  existsb (fun userSkill =>
    JS.includes (JS.toLowerCase userSkill) (JS.toLowerCase skill) ||
    JS.includes (JS.toLowerCase skill) (JS.toLowerCase userSkill)) userExpertise.

Definition matchCount (userExpertise required : list string) : Z :=
  Z.of_nat (length (filter (skill_matches userExpertise) required)).

(** The rounding of the specification's words, on the exact rational
    [num / den] ([den > 0]): [floor(num / den + 1/2)]. *)
Definition round_div (num den : Z) : Z := (2 * num + den) / (2 * den).

(** The score of the source,
    [Math.round((matchCount / requiredExpertise.length) * 100)] in double
    arithmetic; [requiredExpertise] there is [opp.expertiseNeeded || []]. *)
Definition score (u : User) (o : Opportunity) : Z :=
  let required := expertiseNeeded o in
  let n := Z.of_nat (length required) in
  if 0 <? n
  then JS.round (JS.mul_int (JS.div (matchCount (userExpertiseOf u) required) n) 100)
  else 50.

Definition getOpportunities (st : Store) (uid : Z) : Reply (list Scored) * Store :=
  match DataService.getUserById st uid with
  | None => (Err 403 "Access denied. LP role required.", st)
  | Some u =>
  if negb (String.eqb (role u) "LP")
  then (Err 403 "Access denied. LP role required.", st) else
  let openOpportunities :=
    map (fun o => let s := score u o in mkScored o s (30 <? s))
      (filter (fun o => JS.str_eqb (status o) "open") (opportunities st)) in
  (Ok 200 (Listing.sort_desc matchScore openOpportunities), st)
  end.

(** The score as the specification words it:
    [round(100 * overlapCount / max(1, |requiredExpertise|))] over the
    opportunity's [requiredExpertise]. *)
Definition spec_matchScore (u : User) (o : Opportunity) : Z :=
  round_div (100 * matchCount (userExpertiseOf u) (requiredExpertise o))
    (Z.max 1 (Z.of_nat (length (requiredExpertise o)))).

End LP.

(** ** Sequences of calls *)

(** [trackOpportunityView] called once per caller, in order. *)
Fixpoint trackViews (st : Store) (oid : Z) (callers : list Z)
    : list (Reply Z) * Store :=
  match callers with
  | [] => ([], st)
  | c :: cs =>
      let '(r, st1) := Opportunities.trackOpportunityView st c oid in
      let '(rs, st2) := trackViews st1 oid cs in
      (r :: rs, st2)
  end.

(** ** Further handlers of the opportunities controller *)

Module Handlers.
Import DataService.

Section CreateOpportunity.

(** [user.companyName]: a field of the users file that the [User] record
    does not carry; [None] when the key is absent. *)
Variable user_companyName : User -> option string.

(** [POST /api/opportunities].  The opportunity data carries no
    [expertiseNeeded] key (read as [[]] by every reader).
    [dataService.createOpportunity] always returns the new record, so the
    [!newOpportunity] branch is never taken. *)
Definition createOpportunity (st : Store) (uid : Z) (b : Opportunities.UpdateBody)
    : Reply Opportunity * Store :=
  match getUserById st uid with
  | None => (Err 404 "User not found", st)
  | Some u =>
  if negb (String.eqb (role u) "Company")
  then (Err 403 "Access denied. Company role required.", st) else
  match Opportunities.required (Opportunities.b_title b) with
  | None => (Err 400 "Title is required", st)
  | Some t =>
  match Opportunities.required (Opportunities.b_description b) with
  | None => (Err 400 "Description is required", st)
  | Some d =>
  match Opportunities.b_requiredExpertise b with
  | None | Some [] =>
      (Err 400 "At least one area of required expertise is needed", st)
  | Some re =>
  match Opportunities.required (Opportunities.b_timeCommitment b) with
  | None => (Err 400 "Time commitment is required", st)
  | Some tc =>
  match Opportunities.required (Opportunities.b_compensation b) with
  | None => (Err 400 "Compensation details are required", st)
  | Some c =>
  let opportunityData :=
    mkOpportunityData t d (filter (fun e => JS.truthy (JS.trim e)) re) [] tc c
      (Some (u_id u))
      (match user_companyName u with
       | Some n => if JS.truthy n then n else firstName u ++ " " ++ lastName u
       | None => firstName u ++ " " ++ lastName u
       end)
      (Some "open") (Some 0) (Some 0) in
  let '(newOpportunity, st') := DataService.createOpportunity st opportunityData in
  (Ok 201 newOpportunity, st')
  end end end end end end.

End CreateOpportunity.

(** [GET /api/opportunities/:id/applications]: the applications of the
    opportunity, newest first. *)
Definition getOpportunityApplications (st : Store) (uid oid : Z)
    : Reply (list Application) * Store :=
  match getUserById st uid with
  | None => (Err 404 "User not found", st)
  | Some u =>
  if negb (String.eqb (role u) "Company") && negb (String.eqb (role u) "Admin")
  then (Err 403 "Access denied. Company role required.", st) else
  match getOpportunityById st oid with
  | None => (Err 404 "Opportunity not found", st)
  | Some o =>
  if Opportunities.denied o u
  then (Err 403 "Access denied. You can only view applications for your own opportunities.", st) else
  (Ok 200 (Listing.sort_desc app_createdAt (getApplicationsByOpportunity st oid)), st)
  end end.

End Handlers.

(** ** The admin controller ([controllers/adminController.js]) *)

Module Admin.
Import DataService.

(** A double quote, for messages that contain one. *)
Definition dq : string := String (ascii_of_nat 34) EmptyString.

Definition valid_status (s : string) : bool :=
  existsb (String.eqb s) ["open"; "matched"; "closed"].

(** [{ status }] *)
Definition upd_status (s : string) : OppUpdate :=
  mkOppUpdate None None None None None None None None None (Some (JStr s)) None None
    None None.

Definition invalid_status_msg : string :=
  "Invalid status. Must be " ++ dq ++ "open" ++ dq ++ ", " ++ dq ++ "matched" ++ dq
  ++ ", or " ++ dq ++ "closed" ++ dq.

(** [PATCH /api/admin/opportunities/:id/status]; [s] is [req.body.status]. *)
Definition updateOpportunityStatus (st : Store) (oid : Z) (s : option string)
    : Reply Opportunity * Store :=
  match s with
  | Some s' =>
      if valid_status s' then
        match DataService.updateOpportunity st oid (upd_status s') with
        | (None, st') => (Err 404 "Opportunity not found", st')
        | (Some o, st') => (Ok 200 o, st')
        end
      else (Err 400 invalid_status_msg, st)
  | None => (Err 400 invalid_status_msg, st)
  end.

(** [DELETE /api/admin/opportunities/:id] *)
Definition deleteOpportunity (st : Store) (oid : Z) : Reply string * Store :=
  match DataService.deleteOpportunity st oid with
  | (false, st') => (Err 404 "Opportunity not found", st')
  | (true, st') => (Ok 200 "Opportunity deleted successfully", st')
  end.

(** The body of [POST /api/admin/opportunities] ([compensationType] and
    [priority] are fields the [Opportunity] record does not carry). *)
Record CreateBody := mkCreateBody {
  cb_title : option string;
  cb_companyName : option string;
  cb_description : option string;
  cb_expertiseNeeded : option (list string);
  cb_timeCommitment : option string
}.

Definition or_default (x : option string) (dflt : string) : string :=
  match x with Some s => if JS.truthy s then s else dflt | None => dflt end.

(** [POST /api/admin/opportunities]; [callerRole] and [callerId] are
    [req.user.role] and [req.user.id].  The data has no [requiredExpertise]
    key (read as [[]]) and no [compensation] key (the empty string here),
    nor [status], [viewCount] or [applicantCount]. *)
Definition createOpportunity (st : Store) (callerRole : string) (callerId : Z)
    (b : CreateBody) : Reply Opportunity * Store :=
  match cb_title b, cb_companyName b, cb_description b with
  | Some t, Some cn, Some d =>
      if JS.truthy t && JS.truthy cn && JS.truthy d then
        let data :=
          mkOpportunityData t d []
            (match cb_expertiseNeeded b with Some l => l | None => [] end)
            (or_default (cb_timeCommitment b) "Not specified") ""
            (if String.eqb callerRole "Company" then Some callerId else None)
            cn None None None in
        let '(newOpportunity, st') := DataService.createOpportunity st data in
        (Ok 201 newOpportunity, st')
      else (Err 400 "Missing required fields: title, companyName, description", st)
  | _, _, _ => (Err 400 "Missing required fields: title, companyName, description", st)
  end.

(** An entry of [syncResults]. *)
Record SyncResult := mkSyncResult {
  sr_id : Z;
  sr_title : string;
  previousCount : Z;
  actualCount : Z
}.

(** The loop [for (let opportunity of opportunities) { ... }] over the
    collection as read at the start. *)
Fixpoint syncLoop (st : Store) (l : list Opportunity) : list SyncResult * Store :=
  match l with
  | [] => ([], st)
  | o :: l' =>
      let '(n, st1) := syncOpportunityApplicantCount st (id o) in
      let '(r, st2) := syncLoop st1 l' in
      (mkSyncResult (id o) (title o)
         (match applicantCount o with Some c => c | None => 0 end) n :: r, st2)
  end.

(** [POST /api/admin/sync/applicant-counts] *)
Definition syncApplicantCounts (st : Store) : Reply (list SyncResult) * Store :=
  let '(syncResults, st') := syncLoop st (opportunities st) in
  (Ok 200 syncResults, st').

End Admin.

(** ** [expressInterest] ([controllers/lpController.js]) *)

Module Interest.
Import DataService.

(** [opportunity.applications + 1] as stored: an absent key gives [NaN],
    which the JSON file holds as [null]; [null] and booleans are numbers
    here; a string is concatenated with ["1"]. *)
Definition plus_one (v : option JVal) : JVal :=
  match v with
  | None => JNull
  | Some JNull => JNum 1
  | Some (JBool b) => JNum (if b then 2 else 1)
  | Some (JNum n) => JNum (JS.add n 1)
  | Some (JStr s) => JStr (s ++ "1")
  end.

(** [{ applications: v }] *)
Definition upd_applications (v : JVal) : OppUpdate :=
  mkOppUpdate None None None None None None None None None None None None
    (Some v) None.

(** [POST /api/lp/opportunities/:opportunityId/interest].  The reply's log
    entry is summarised by its [(opportunityId, lpId)]; it is not stored. *)
Definition expressInterest (st : Store) (uid oid : Z) : Reply (Z * Z) * Store :=
  match getUserById st uid with
  | None => (Err 403 "Access denied. LP role required.", st)
  | Some u =>
  if negb (String.eqb (role u) "LP")
  then (Err 403 "Access denied. LP role required.", st) else
  match getOpportunityById st oid with
  | None => (Err 404 "Opportunity not found", st)
  | Some o =>
  if negb (JS.str_eqb (status o) "open")
  then (Err 400 "This opportunity is no longer open", st) else
  let st' := snd (DataService.updateOpportunity st oid
                    (upd_applications (plus_one (opp_applications o)))) in
  (Ok 200 (oid, uid), st')
  end end.

End Interest.

(** ** Sample data (the scenario of the specification) *)

Module Samples.

Definition companyA : User := mkUser 1 "Company" "Ann" "Avery" "ann@acme.io" None None.
Definition lpB : User := mkUser 2 "LP" "Ben" "Bose" "ben@lp.io" (Some ["Marketing"]) None.
Definition companyD : User := mkUser 3 "Company" "Dee" "Dunn" "dee@dco.io" None None.
Definition admin : User := mkUser 9 "Admin" "Ada" "Admin" "ada@vac.io" None None.

Definition opp1 : Opportunity :=
  mkOpportunity 1 "Advisor Needed" "Go-to-market help" ["Marketing"] []
    "5-10 hours/month" "Equity" (Some 1) "Acme" "open" (Some 0) (Some 0)
    (Some (JNum 0)) 100 100.

Definition st0 : Store := mkStore [companyA; lpB; companyD; admin] [opp1] [] 200.

Definition body1 : Opportunities.UpdateBody :=
  Opportunities.mkUpdateBody (Some "Advisor Needed") (Some "Go-to-market help")
    (Some ["Marketing"]) (Some "5-10 hours/month") (Some "Equity").

Definition q_none : Listing.Query := Listing.mkQuery None None None None.

(** An opportunity as [createOpportunity] of the admin controller stores
    it: no [applicantCount], no [viewCount], no owner. *)
Definition opp_admin : Opportunity :=
  mkOpportunity 7 "Fractional CFO" "Finance advisory" [] ["Finance"]
    "Not specified" "" None "Beta" "open" None None (Some (JNum 0)) 150 150.

Definition st_admin : Store := mkStore [companyA; lpB; companyD; admin] [opp_admin] [] 200.

(** Store [st0] after LP B applied to opportunity 1, which was then
    closed. *)
Definition app_b1 : Application :=
  mkApplication 1 2 "Ben Bose" "ben@lp.io" 1 "Advisor Needed" (Some 1) "Acme"
    "pending" 200 200.

Definition opp1_closed : Opportunity :=
  mkOpportunity 1 "Advisor Needed" "Go-to-market help" ["Marketing"] []
    "5-10 hours/month" "Equity" (Some 1) "Acme" "closed" (Some 0) (Some 1)
    (Some (JNum 0)) 100 300.

Definition st_closed : Store := mkStore [companyA; lpB; companyD; admin] [opp1_closed] [app_b1] 300.

(** Store [st0] after LP B applied to opportunity 1 (still open). *)
Definition st_applied : Store := mkStore [companyA; lpB; companyD; admin] [opp1] [app_b1] 300.

(** An application whose opportunity was deleted. *)
Definition st_orphan : Store := mkStore [companyA; lpB; companyD; admin] [] [app_b1] 300.

(** A patch body [{ companyId: 3 }]. *)
Definition patch_owner : OppUpdate :=
  mkOppUpdate None None None None None None None (Some (Some 3)) None None None None
    None None.

(** A patch body [{ id: -5 }]. *)
Definition patch_id_neg : OppUpdate :=
  mkOppUpdate (Some (-5)) None None None None None None None None None None None
    None None.

(** A patch body [{ id: 9007199254740992 }] ([2^53]). *)
Definition patch_id_big : OppUpdate :=
  mkOppUpdate (Some 9007199254740992) None None None None None None None None None None
    None None None.

(** A patch body [{ viewCount: 9007199254740992 }] ([2^53]). *)
Definition patch_views_big : OppUpdate :=
  mkOppUpdate None None None None None None None None None None
    (Some (Some 9007199254740992)) None None None.

(** An open opportunity needing 40 areas, 23 of them "Marketing". *)
Definition opp_half : Opportunity :=
  mkOpportunity 5 "Growth Lead" "Launch help" [] (repeat "Marketing" 23 ++ repeat "Law" 17)%list
    "5 hours/week" "Equity" (Some 1) "Acme" "open" (Some 0) (Some 0) (Some (JNum 0)) 100 100.

Definition st_half : Store := mkStore [companyA; lpB; companyD; admin] [opp_half] [] 200.

(** The fields a company's new opportunity is created from. *)
Definition data1 : OpportunityData :=
  mkOpportunityData "Growth Advisor" "Scale-up help" ["Growth"] [] "2 hours/week"
    "Equity" (Some 1) "Acme" (Some "open") (Some 0) (Some 0).


(** The [companyName] key of the users file: only company A has one. *)
Definition companyName_of (u : User) : option string :=
  if u_id u =? 1 then Some "Acme" else None.


End Samples.

(** * Properties used by the statements *)

(** An update object that leaves [id] and [companyId] alone. *)
Definition keeps_owner (u : OppUpdate) : Prop :=
  up_id u = None /\ up_companyId u = None.

(** A record's id and owner. *)
Definition key_owner (o : Opportunity) : Z * option Z := (id o, companyId o).

(** [x || 0] for a stored count. *)
Definition or0 (x : option Z) : Z := match x with Some n => n | None => 0 end.

(** The number of applications that reference opportunity [k]. *)
Definition count (st : Store) (k : Z) : Z :=
  Z.of_nat (length (DataService.getApplicationsByOpportunity st k)).

(** A list kept from [L]: its records are records of [L], and distinct ids
    stay distinct. *)
Definition kept (L l : list Opportunity) : Prop :=
  incl l L /\ (NoDup (map id L) -> NoDup (map id l)).

(** The [(lpId, opportunityId)] pair of an application. *)
Definition pair_of (a : Application) : Z * Z := (lpId a, opportunityId a).

(** * Double arithmetic *)

Module NumFacts.

Lemma round_ne_err : forall num den, 0 < den ->
  - den <= 2 * (JS.round_ne num den * den - num) <= den.
Proof.
  intros num den Hd. unfold JS.round_ne.
  pose proof (Z.div_mod num den ltac:(lia)) as Hdm.
  pose proof (Z.mod_pos_bound num den Hd) as Hb.
  set (q := num / den) in *. set (r := num mod den) in *.
  destruct (2 * r <? den) eqn:E1; [apply Z.ltb_lt in E1; nia|apply Z.ltb_ge in E1].
  destruct (den <? 2 * r) eqn:E2; [apply Z.ltb_lt in E2; nia|apply Z.ltb_ge in E2].
  destruct (Z.even q); nia.
Qed.

Lemma shift_ratio_lower : forall num den e n' d',
  0 < num -> 0 < den -> e <= Z.log2 num - Z.log2 den - 52 ->
  JS.shift_ratio num den e = (n', d') -> 0 < d' /\ 2 ^ 51 * d' <= n'.
Proof.
  intros num den e n' d' Hn Hd He Es.
  pose proof (Z.log2_spec num Hn) as [Hn1 _].
  pose proof (Z.log2_spec den Hd) as [_ Hd2].
  pose proof (Z.log2_nonneg num). pose proof (Z.log2_nonneg den).
  set (Ln := Z.log2 num) in *. set (Ld := Z.log2 den) in *.
  unfold JS.shift_ratio in Es. destruct (e <=? 0) eqn:E; inversion Es; subst n' d'; clear Es.
  - apply Z.leb_le in E. split; [lia|].
    assert (H1 : 2 ^ 51 * 2 ^ (Ld + 1) <= 2 ^ Ln * 2 ^ (- e)).
    { rewrite <- !Z.pow_add_r by lia. apply Z.pow_le_mono_r; lia. }
    assert (H2 : 0 <= 2 ^ (- e)) by (apply Z.pow_nonneg; lia).
    assert (H3 : 2 ^ Ln * 2 ^ (- e) <= num * 2 ^ (- e)) by (apply Z.mul_le_mono_nonneg_r; lia).
    assert (H4 : 2 ^ 51 * den <= 2 ^ 51 * 2 ^ (Ld + 1)) by lia.
    lia.
  - apply Z.leb_gt in E.
    assert (Hp : 0 < 2 ^ e) by (apply Z.pow_pos_nonneg; lia).
    split; [nia|].
    assert (H1 : 2 ^ 51 * 2 ^ (Ld + 1) * 2 ^ e <= 2 ^ Ln).
    { rewrite <- !Z.pow_add_r by lia. apply Z.pow_le_mono_r; lia. }
    assert (H4 : 2 ^ 51 * (den * 2 ^ e) <= 2 ^ 51 * 2 ^ (Ld + 1) * 2 ^ e).
    { rewrite Z.mul_assoc. apply Z.mul_le_mono_nonneg_r; lia. }
    lia.
Qed.

Lemma to_double_err : forall num den a b, 0 < num -> 0 < den ->
  JS.frac (JS.to_double num den) = (a, b) ->
  0 < b /\ - (num * b) <= 2 ^ 52 * (a * den - num * b) <= num * b.
Proof.
  intros num den a b Hn Hd Hf. unfold JS.to_double in Hf.
  destruct (num <=? 0) eqn:E0; [apply Z.leb_le in E0; lia|].
  set (e0 := Z.log2 num - Z.log2 den - 52) in Hf.
  set (e := if 2 ^ 52 <=? _ then e0 else e0 - 1) in Hf.
  assert (He : e <= e0) by (unfold e; destruct (2 ^ 52 <=? _); lia).
  destruct (JS.shift_ratio num den e) as [n' d'] eqn:Es.
  destruct (shift_ratio_lower num den e n' d' Hn Hd He Es) as [Hd' Hl].
  pose proof (round_ne_err n' d' Hd') as Hr.
  set (M := JS.round_ne n' d') in *.
  unfold JS.frac, JS.shift_ratio in Hf, Es.
  destruct (e <=? 0) eqn:E; inversion Es; subst n' d'; clear Es.
  - apply Z.leb_le in E.
    assert (H2 : 0 < 2 ^ (- e)) by (apply Z.pow_pos_nonneg; lia).
    destruct (- e <=? 0) eqn:E'; injection Hf as <- <-; rewrite ?Z.mul_1_l.
    + apply Z.leb_le in E'. clearbody M e. assert (e = 0) by lia. subst e.
      change (2 ^ (- - 0)) with 1 in *. change (2 ^ (- 0)) with 1 in *.
      replace (2 ^ 52) with (2 * 2 ^ 51) by reflexivity.
      set (P := 2 ^ 51) in *. nia.
    + clearbody M e.
      replace (2 ^ 52) with (2 * 2 ^ 51) by reflexivity.
      set (P := 2 ^ 51) in *. set (Q := 2 ^ (- e)) in *.
      assert (0 < P) by (unfold P; lia).
      assert (P * (2 * (M * den - num * Q)) <= P * den) by (apply Z.mul_le_mono_nonneg_l; lia).
      assert (P * (- den) <= P * (2 * (M * den - num * Q))) by (apply Z.mul_le_mono_nonneg_l; lia).
      replace (match Q with 0 => 0 | Z.pos y' => Z.pos y' | Z.neg y' => Z.neg y' end)
        with Q by (destruct Q; reflexivity).
      lia.
  - apply Z.leb_gt in E.
    assert (H2 : 0 < 2 ^ e) by (apply Z.pow_pos_nonneg; lia).
    destruct (- e <=? 0) eqn:E'; [|apply Z.leb_gt in E'; lia].
    injection Hf as <- <-. rewrite Z.opp_involutive. clearbody M e.
    replace (2 ^ 52) with (2 * 2 ^ 51) by reflexivity.
    set (P := 2 ^ 51) in *. set (Q := 2 ^ e) in *.
    assert (0 < P) by (unfold P; lia).
    assert (P * (2 * (M * (den * Q) - num)) <= P * (den * Q)) by (apply Z.mul_le_mono_nonneg_l; lia).
    assert (P * (- (den * Q)) <= P * (2 * (M * (den * Q) - num))) by (apply Z.mul_le_mono_nonneg_l; lia).
    lia.
Qed.

Lemma div_bounds : forall x y q, 0 < y -> y * q <= x < y * (q + 1) -> x / y = q.
Proof.
  intros x y q Hy H. symmetry. apply (Z.div_unique x y q (x - y * q)); lia.
Qed.

Lemma js_score_round : forall m n, 0 <= m <= n -> 0 < n < 2 ^ 32 ->
  (((200 * m + n) mod (2 * n) <> 0 ->
    JS.round (JS.mul_int (JS.div m n) 100) = (200 * m + n) / (2 * n)) /\
   ((200 * m + n) mod (2 * n) = 0 ->
    JS.round (JS.mul_int (JS.div m n) 100) = (200 * m + n) / (2 * n) \/
    JS.round (JS.mul_int (JS.div m n) 100) = (200 * m + n) / (2 * n) - 1)).
Proof.
  intros m n Hm Hn.
  pose proof (Z.div_mod (200 * m + n) (2 * n) ltac:(lia)) as HT.
  pose proof (Z.mod_pos_bound (200 * m + n) (2 * n) ltac:(lia)) as Hrb.
  set (K := (200 * m + n) / (2 * n)) in *.
  set (r := (200 * m + n) mod (2 * n)) in *.
  destruct (Z.eq_dec m 0) as [->|Hm0].
  - unfold JS.div, JS.mul_int, JS.round, JS.to_double, JS.frac, JS.shift_ratio. simpl.
    assert (K = 0) by (subst K; apply Z.div_small; lia).
    change (1 / 2) with 0. split; intros; lia.
  - unfold JS.div, JS.mul_int, JS.round.
    destruct (JS.frac (JS.to_double m n)) as [a1 b1] eqn:F1.
    destruct (to_double_err m n a1 b1 ltac:(lia) ltac:(lia) F1) as [Hb1 E1].
    assert (Ha1 : 0 < a1) by nia.
    destruct (JS.frac (JS.to_double (a1 * 100) b1)) as [a2 b2] eqn:F2.
    destruct (to_double_err (a1 * 100) b1 a2 b2 ltac:(lia) Hb1 F2) as [Hb2 E2].
    set (G := a2 * n - 100 * m * b2).
    assert (HX : 2 ^ 52 * G * b1 =
      n * (2 ^ 52 * (a2 * b1 - a1 * 100 * b2)) + 100 * b2 * (2 ^ 52 * (a1 * n - m * b1)))
      by (subst G; ring).
    assert (Han : a1 * n <= 2 * m * b1) by nia.
    assert (HG1 : 2 ^ 52 * G * b1 <= 300 * m * b1 * b2) by nia.
    assert (HG2 : - (300 * m * b1 * b2) <= 2 ^ 52 * G * b1) by nia.
    assert (HG : - (300 * m * b2) <= 2 ^ 52 * G <= 300 * m * b2) by nia.
    assert (HG' : - b2 < 2 * G < b2) by nia.
    assert (Hid : n * (2 * a2 + b2) = 2 * G + b2 * (2 * n * K + r)) by (subst G; nia).
    split; intros Hr.
    + apply div_bounds; [lia|]. nia.
    + destruct (Z_lt_le_dec (2 * a2 + b2) (2 * b2 * K)) as [Hlt|Hge].
      * right. apply div_bounds; [lia|]. nia.
      * left. apply div_bounds; [lia|]. nia.
Qed.

Lemma round_double_exact : forall x, - 2 ^ 53 <= x <= 2 ^ 53 -> JS.round_double x = x.
Proof.
  intros x Hx. unfold JS.round_double.
  destruct (Z.eq_dec (Z.abs x) (2 ^ 53)) as [Ha|Ha].
  - rewrite Ha. change (Z.log2 (2 ^ 53) - 52 <=? 0) with false. cbv iota.
    change (JS.round_ne (2 ^ 53) (2 ^ (Z.log2 (2 ^ 53) - 52)) * 2 ^ (Z.log2 (2 ^ 53) - 52))
      with (2 ^ 53).
    destruct (Z.abs_spec x) as [[H1 H2]|[H1 H2]]; rewrite H2 in Ha.
    + subst x. reflexivity.
    + assert (x = - 2 ^ 53) by lia. subst x. reflexivity.
  - assert (Hlt : Z.abs x < 2 ^ 53) by lia.
    assert (Hl : Z.log2 (Z.abs x) < 53).
    { destruct (Z.eq_dec (Z.abs x) 0) as [->|Hz]; [reflexivity|].
      apply Z.log2_lt_pow2; lia. }
    destruct (Z.log2 (Z.abs x) - 52 <=? 0) eqn:E; [reflexivity|].
    apply Z.leb_gt in E. lia.
Qed.

Lemma add_exact : forall a b, - 2 ^ 53 <= a + b <= 2 ^ 53 -> JS.add a b = a + b.
Proof. intros a b H. apply round_double_exact. exact H. Qed.

Lemma max0_nonneg : forall xs, 0 <= JS.max0 xs.
Proof. induction xs as [|x xs IH]; simpl; lia. Qed.

Lemma max0_In : forall xs, JS.max0 xs = 0 \/ In (JS.max0 xs) xs.
Proof.
  induction xs as [|x xs IH]; simpl; [left; reflexivity|].
  destruct (Z.max_spec x (JS.max0 xs)) as [[_ ->]|[_ ->]]; [|right; left; reflexivity].
  destruct IH as [->|IH]; [left; reflexivity|right; right; exact IH].
Qed.

(** Below [2^53], the new id of [dataService.createOpportunity] is the
    exact successor of the largest id. *)
Lemma newId_exact : forall xs, Forall (fun k => k < 2 ^ 53) xs ->
  JS.add (JS.max0 xs) 1 = JS.max0 xs + 1.
Proof.
  intros xs H. apply add_exact. pose proof (max0_nonneg xs).
  destruct (max0_In xs) as [->|Hin]; [lia|].
  rewrite Forall_forall in H. specialize (H _ Hin). lia.
Qed.

End NumFacts.

(** * Store lemmas *)

Module StoreFacts.
Import DataService.

Lemma str_eqb_spec (v : JVal) (s : string) : reflect (v = JStr s) (JS.str_eqb v s).
Proof.
  destruct v as [| | |s']; simpl; try (constructor; discriminate).
  destruct (String.eqb_spec s' s); constructor; congruence.
Qed.

Section ReplaceFirst.
Variable k : Z.
Variable f : Opportunity -> Opportunity.
Hypothesis f_id : forall o, id (f o) = id o.

Lemma replace_first_fst : forall l,
  fst (replace_first k f l) = option_map f (find (fun o => id o =? k) l).
Proof.
  induction l as [|o l IH]; simpl; [reflexivity|].
  destruct (id o =? k); [reflexivity|].
  destruct (replace_first k f l) as [r l'] eqn:E; simpl in *; exact IH.
Qed.

Lemma replace_first_find : forall l k',
  find (fun o => id o =? k') (snd (replace_first k f l)) =
  if k' =? k then option_map f (find (fun o => id o =? k) l)
  else find (fun o => id o =? k') l.
Proof.
  induction l as [|o l IH]; intros k'; simpl.
  - destruct (k' =? k); reflexivity.
  - destruct (id o =? k) eqn:Ek.
    + simpl. rewrite f_id. apply Z.eqb_eq in Ek. subst k.
      destruct (id o =? k') eqn:E1, (k' =? id o) eqn:E2; try reflexivity;
        rewrite Z.eqb_sym in E2; congruence.
    + destruct (replace_first k f l) as [r l'] eqn:E; simpl in *.
      specialize (IH k'). rewrite IH.
      destruct (id o =? k') eqn:E1, (k' =? k) eqn:E2; try reflexivity.
      apply Z.eqb_eq in E1, E2. subst. rewrite Z.eqb_refl in Ek. discriminate.
Qed.

Lemma replace_first_map : forall (g : Opportunity -> Z * option Z) l,
  (forall o, g (f o) = g o) ->
  map g (snd (replace_first k f l)) = map g l.
Proof.
  intros g l Hg. induction l as [|o l IH]; simpl; [reflexivity|].
  destruct (id o =? k); simpl; [rewrite Hg; reflexivity|].
  destruct (replace_first k f l) as [r l'] eqn:E; simpl in *. rewrite IH. reflexivity.
Qed.

End ReplaceFirst.

Lemma updateOpportunity_find : forall st k u k',
  up_id u = None ->
  getOpportunityById (snd (updateOpportunity st k u)) k' =
  if k' =? k then option_map (fun o => merge o u (now st)) (getOpportunityById st k)
  else getOpportunityById st k'.
Proof.
  intros st k u k' Hid. unfold updateOpportunity, getOpportunityById.
  pose proof (replace_first_fst k (fun o => merge o u (now st))
                (opportunities st)) as Hf.
  pose proof (replace_first_find k (fun o => merge o u (now st))
                (fun o => ltac:(unfold merge; simpl; rewrite Hid; reflexivity))
                (opportunities st) k') as Hr.
  destruct (replace_first k _ (opportunities st)) as [[o|] l] eqn:E; simpl in *.
  - exact Hr.
  - destruct (k' =? k) eqn:Ek; [|reflexivity].
    apply Z.eqb_eq in Ek; subst k'.
    destruct (find (fun o => id o =? k) (opportunities st)); simpl in *; congruence.
Qed.

Lemma updateOpportunity_key_owner : forall st k u,
  keeps_owner u ->
  map key_owner (opportunities (snd (updateOpportunity st k u))) =
  map key_owner (opportunities st).
Proof.
  intros st k u [Hid Hc]. unfold updateOpportunity.
  pose proof (replace_first_map k (fun o => merge o u (now st))
                key_owner (opportunities st)
                (fun o => ltac:(unfold key_owner, merge; simpl; rewrite Hid, Hc; reflexivity))) as H.
  destruct (replace_first k _ (opportunities st)) as [[o|] l] eqn:E; simpl in *;
    [exact H | reflexivity].
Qed.

Lemma updateOpportunity_applications : forall st k u,
  applications (snd (updateOpportunity st k u)) = applications st.
Proof.
  intros st k u. unfold updateOpportunity.
  destruct (replace_first _ _ _) as [[o|] l]; reflexivity.
Qed.

Lemma updateOpportunity_users : forall st k u,
  users (snd (updateOpportunity st k u)) = users st.
Proof.
  intros st k u. unfold updateOpportunity.
  destruct (replace_first _ _ _) as [[o|] l]; reflexivity.
Qed.

Lemma keeps_owner_applicantCount : forall n, keeps_owner (upd_applicantCount n).
Proof. split; reflexivity. Qed.

Lemma keeps_owner_viewCount : forall n, keeps_owner (upd_viewCount n).
Proof. split; reflexivity. Qed.

(** With pairwise distinct ids, a record of the collection is what a lookup
    of its id finds. *)
Lemma find_id_NoDup : forall (l : list Opportunity) o,
  NoDup (map id l) -> In o l -> find (fun x => id x =? id o) l = Some o.
Proof.
  induction l as [|x l IH]; intros o Hnd Hin; [destruct Hin|].
  simpl in *. inversion Hnd as [|? ? Hnot Hnd']; subst.
  destruct Hin as [<-|Hin].
  - rewrite Z.eqb_refl. reflexivity.
  - destruct (id x =? id o) eqn:E.
    + apply Z.eqb_eq in E. exfalso. apply Hnot. rewrite E. apply in_map. exact Hin.
    + apply IH; assumption.
Qed.

Lemma replace_first_app_map : forall (g : Application -> Z * Z) aid f l,
  (forall a, g (f a) = g a) ->
  map g (snd (replace_first_app aid f l)) = map g l.
Proof.
  intros g aid f l Hg. induction l as [|a l IH]; simpl; [reflexivity|].
  destruct (app_id a =? aid); simpl; [rewrite Hg; reflexivity|].
  destruct (replace_first_app aid f l) as [r l'] eqn:E; simpl in *. rewrite IH. reflexivity.
Qed.

Lemma updateApplication_pairs : forall st aid s,
  map pair_of (applications (snd (updateApplication st aid s))) =
  map pair_of (applications st).
Proof.
  intros st aid s. unfold updateApplication.
  pose proof (replace_first_app_map pair_of aid
    (fun a => mkApplication (app_id a) (lpId a) (lpName a) (lpEmail a)
               (opportunityId a) (opportunityTitle a) (app_companyId a)
               (app_companyName a) s (app_createdAt a) (now st))
    (applications st) (fun a => eq_refl)) as H.
  destruct (replace_first_app _ _ _) as [[a|] l]; simpl in *; [exact H | reflexivity].
Qed.

End StoreFacts.

(** * Listing lemmas *)

Module ListingFacts.
Import DataService Listing StoreFacts.

Lemma count_apps : forall st st' k,
  applications st' = applications st -> count st' k = count st k.
Proof. intros st st' k H. unfold count, getApplicationsByOpportunity. rewrite H. reflexivity. Qed.

Lemma syncOne_fst : forall st o, fst (syncOne st o) = count st (id o).
Proof. reflexivity. Qed.

Lemma syncOne_apps : forall st o,
  applications (snd (syncOne st o)) = applications st.
Proof.
  intros st o. unfold syncOne; simpl.
  destruct (_ =? _); [reflexivity|apply updateOpportunity_applications].
Qed.

Lemma syncOne_users : forall st o, users (snd (syncOne st o)) = users st.
Proof.
  intros st o. unfold syncOne; simpl.
  destruct (_ =? _); [reflexivity|apply updateOpportunity_users].
Qed.

Lemma syncOne_key_owner : forall st o,
  map key_owner (opportunities (snd (syncOne st o))) = map key_owner (opportunities st).
Proof.
  intros st o. unfold syncOne; simpl.
  destruct (_ =? _); [reflexivity|].
  apply updateOpportunity_key_owner, keeps_owner_applicantCount.
Qed.

Lemma syncOne_frame : forall st o k, k <> id o ->
  getOpportunityById (snd (syncOne st o)) k = getOpportunityById st k.
Proof.
  intros st o k Hk. unfold syncOne; simpl.
  destruct (_ =? _); [reflexivity|].
  rewrite updateOpportunity_find by reflexivity.
  apply Z.eqb_neq in Hk. rewrite Hk. reflexivity.
Qed.

Lemma syncOne_here : forall st o,
  getOpportunityById st (id o) = Some o ->
  exists o', getOpportunityById (snd (syncOne st o)) (id o) = Some o' /\
    applicantCount o' =
      (if or0 (applicantCount o) =? count st (id o) then applicantCount o
       else Some (count st (id o))).
Proof.
  intros st o Hf. unfold syncOne, or0, count; simpl.
  destruct (_ =? _) eqn:E.
  - exists o. split; [exact Hf|reflexivity].
  - rewrite updateOpportunity_find by reflexivity. rewrite Z.eqb_refl, Hf.
    eexists; split; reflexivity.
Qed.

Lemma syncCounts_fst : forall l st,
  fst (syncCounts st l) = map (fun o => set_applicantCount o (count st (id o))) l.
Proof.
  induction l as [|o l IH]; intros st; [reflexivity|].
  cbn [syncCounts]. pose proof (syncOne_apps st o) as Ha.
  destruct (syncOne st o) as [n st1] eqn:E1.
  pose proof (IH st1) as IH1.
  destruct (syncCounts st1 l) as [r st2] eqn:E2. simpl in *.
  assert (n = count st (id o)) as -> by (rewrite <- (syncOne_fst st o), E1; reflexivity).
  rewrite IH1. f_equal. apply map_ext. intros x. rewrite (count_apps st st1) by exact Ha.
  reflexivity.
Qed.

Lemma syncCounts_apps : forall l st,
  applications (snd (syncCounts st l)) = applications st /\
  users (snd (syncCounts st l)) = users st /\
  map key_owner (opportunities (snd (syncCounts st l))) = map key_owner (opportunities st).
Proof.
  induction l as [|o l IH]; intros st; [repeat split|].
  cbn [syncCounts].
  pose proof (syncOne_apps st o) as Ha. pose proof (syncOne_users st o) as Hu.
  pose proof (syncOne_key_owner st o) as Hk.
  destruct (syncOne st o) as [n st1] eqn:E1.
  destruct (IH st1) as (Ha1 & Hu1 & Hk1).
  destruct (syncCounts st1 l) as [r st2] eqn:E2. simpl in *.
  repeat split; congruence.
Qed.

Lemma syncCounts_frame : forall l st k, ~ In k (map id l) ->
  getOpportunityById (snd (syncCounts st l)) k = getOpportunityById st k.
Proof.
  induction l as [|o l IH]; intros st k Hk; [reflexivity|].
  cbn [syncCounts]. simpl in Hk.
  pose proof (syncOne_frame st o k (fun e => Hk (or_introl (eq_sym e)))) as Hf.
  destruct (syncOne st o) as [n st1] eqn:E1.
  pose proof (IH st1 k (fun h => Hk (or_intror h))) as IH1.
  destruct (syncCounts st1 l) as [r st2] eqn:E2. simpl in *. congruence.
Qed.

Lemma syncCounts_store : forall l st,
  NoDup (map id l) ->
  (forall o, In o l -> getOpportunityById st (id o) = Some o) ->
  forall o, In o l ->
  exists o', getOpportunityById (snd (syncCounts st l)) (id o) = Some o' /\
    applicantCount o' =
      (if or0 (applicantCount o) =? count st (id o) then applicantCount o
       else Some (count st (id o))).
Proof.
  induction l as [|a l IH]; intros st Hnd Hst o Hin; [destruct Hin|].
  cbn [syncCounts]. inversion Hnd as [|? ? Hnot Hnd']; subst.
  pose proof (syncOne_apps st a) as Ha.
  pose proof (syncOne_here st a (Hst a (or_introl eq_refl))) as Hhere.
  assert (Hfr : forall k, k <> id a ->
            getOpportunityById (snd (syncOne st a)) k = getOpportunityById st k)
    by (intros; apply syncOne_frame; assumption).
  destruct (syncOne st a) as [n st1] eqn:E1. simpl in Ha, Hhere, Hfr.
  pose proof (syncCounts_frame l st1 (id a) Hnot) as Hfa.
  destruct (syncCounts st1 l) as [r st2] eqn:E2. simpl in *.
  destruct Hin as [<-|Hin].
  - rewrite Hfa. exact Hhere.
  - assert (Hne : id o <> id a).
    { intros He. apply Hnot. rewrite <- He. apply in_map. exact Hin. }
    destruct (IH st1 Hnd') with (o := o) as (o' & H1 & H2); [| exact Hin |].
    + intros x Hx. rewrite Hfr; [apply Hst; right; exact Hx|].
      intros He. apply Hnot. rewrite <- He. apply in_map. exact Hx.
    + rewrite E2 in H1. simpl in H1. exists o'. split; [exact H1|].
      rewrite H2, (count_apps st st1 _ Ha). reflexivity.
Qed.

Lemma kept_refl : forall L, kept L L.
Proof. split; [apply incl_refl | auto]. Qed.

Lemma kept_trans : forall L l m, kept L l -> kept l m -> kept L m.
Proof.
  intros L l m [H1 H2] [H3 H4]. split; [eapply incl_tran; eauto | auto].
Qed.

Lemma NoDup_map_filter : forall (g : Opportunity -> Z) p l,
  NoDup (map g l) -> NoDup (map g (filter p l)).
Proof.
  intros g p l. induction l as [|x l IH]; simpl; intros Hnd; [constructor|].
  inversion Hnd as [|? ? Hnot Hnd']; subst.
  destruct (p x); simpl; [constructor|]; auto.
  intros Hin. apply Hnot. apply in_map_iff in Hin as (y & Hy & Hy').
  apply filter_In in Hy' as [Hy' _]. rewrite <- Hy. apply in_map. exact Hy'.
Qed.

Lemma kept_filter : forall p L, kept L (filter p L).
Proof.
  intros p L. split.
  - intros x Hx. apply filter_In in Hx. tauto.
  - apply NoDup_map_filter.
Qed.

Lemma kept_filter_after : forall p L l, kept L l -> kept L (filter p l).
Proof. intros p L l H. eapply kept_trans; [exact H | apply kept_filter]. Qed.

Lemma filterOpportunities_kept : forall user q L,
  kept L (filterOpportunities user q L).
Proof.
  intros user q L. unfold filterOpportunities.
  repeat match goal with
         | |- context [match ?x with _ => _ end] => destruct x
         | |- context [if ?b then _ else _] => destruct b
         end;
  repeat (apply kept_filter_after); apply kept_refl.
Qed.

Lemma insert_desc_perm : forall {A} (key : A -> Z) x l,
  Permutation.Permutation (insert_desc key x l) (x :: l).
Proof.
  intros A key x l. induction l as [|y l IH]; simpl; [reflexivity|].
  destruct (key y <=? key x); [reflexivity|].
  eapply Permutation.perm_trans; [apply Permutation.perm_skip; exact IH|].
  apply Permutation.perm_swap.
Qed.

Lemma sort_desc_perm : forall {A} (key : A -> Z) l,
  Permutation.Permutation (sort_desc key l) l.
Proof.
  intros A key l. induction l as [|x l IH]; simpl; [reflexivity|].
  eapply Permutation.perm_trans; [apply insert_desc_perm|].
  apply Permutation.perm_skip. exact IH.
Qed.

Lemma kept_sort : forall key l, kept l (sort_desc key l).
Proof.
  intros key l. pose proof (sort_desc_perm key l) as P. split.
  - intros x Hx. eapply Permutation.Permutation_in; [exact P | exact Hx].
  - intros Hnd. eapply Permutation.Permutation_NoDup; [| exact Hnd].
    apply Permutation.Permutation_map. symmetry. exact P.
Qed.

End ListingFacts.

(** * Claims *)

Import DataService Listing StoreFacts ListingFacts.

(** The state of a listed opportunity [o] after a listing read from store
    [st] that ends in store [st']: the returned copy carries the actual
    count; the stored record [o'], read as [applicantCount || 0], equals
    it; and [o'] keeps the [applicantCount] of the record [ob] stored
    before when [ob]'s [applicantCount || 0] already equals the actual
    count (an absent count stays absent), and holds the actual count
    otherwise. *)
Definition listed_synced (st st' : Store) (o : Opportunity) : Prop :=
  applicantCount o = Some (count st' (id o)) /\
  exists ob o', getOpportunityById st (id o) = Some ob /\
    getOpportunityById st' (id o) = Some o' /\
    or0 (applicantCount o') = count st' (id o) /\
    applicantCount o' =
      (if or0 (applicantCount ob) =? count st' (id o) then applicantCount ob
       else Some (count st' (id o))).

Lemma sync_listed : forall st l,
  NoDup (map id (opportunities st)) -> kept (opportunities st) l ->
  forall o, In o (fst (syncCounts st l)) -> listed_synced st (snd (syncCounts st l)) o.
Proof.
  intros st l Hnd [Hincl Hkeep] o Hin.
  pose proof (Hkeep Hnd) as Hndl.
  assert (Hst : forall x, In x l -> getOpportunityById st (id x) = Some x)
    by (intros x Hx; apply find_id_NoDup; [exact Hnd | apply Hincl; exact Hx]).
  pose proof (syncCounts_store l st Hndl Hst) as Hstore.
  destruct (syncCounts_apps l st) as (Ha & _ & _).
  rewrite syncCounts_fst in Hin. apply in_map_iff in Hin as (x & <- & Hx).
  destruct (Hstore x Hx) as (o' & H1 & H2).
  split; simpl; rewrite (count_apps st _ (id x) Ha).
  - reflexivity.
  - exists x, o'. split; [exact (Hst x Hx)|]. split; [exact H1|]. split; [|exact H2].
    rewrite H2.
    destruct (Z.eqb_spec (or0 (applicantCount x)) (count st (id x))) as [E|E];
      [exact E|reflexivity].
Qed.

(** C1 (corrected). After either listing read (the discovery listing
    [getOpportunities] and the company listing [getCompanyOpportunities]),
    in a store whose opportunity ids are pairwise distinct, every returned
    opportunity carries [applicantCount] equal to the number [c] of
    applications that reference it, and its stored record, read as
    [applicantCount || 0], equals [c]: the stored [applicantCount] is
    rewritten to [c] when the one stored before, read as
    [applicantCount || 0], differs from [c], and is kept as it was
    otherwise, so an absent count with no applications stays absent. *)
Theorem listing_applicantCount_synced : forall st uid q,
  NoDup (map id (opportunities st)) ->
  (forall o f, In (o, f) (fst (Listing.getOpportunities st uid q)) ->
     listed_synced st (snd (Listing.getOpportunities st uid q)) o) /\
  (forall l st', Listing.getCompanyOpportunities st uid = (Ok 200 l, st') ->
     forall o, In o l -> listed_synced st st' o).
Proof.
  intros st uid q Hnd. split.
  - intros o f. unfold Listing.getOpportunities.
    pose proof (sync_listed st
      (sort_desc createdAt (filterOpportunities (getUserById st uid) q (opportunities st))) Hnd
      (kept_trans _ _ _ (filterOpportunities_kept _ _ _) (kept_sort _ _))) as H.
    destruct (syncCounts st _) as [ops st'] eqn:E. simpl in H |- *.
    intros Hin. apply H.
    destruct (getUserById st uid) as [u|]; [destruct (String.eqb (role u) "LP")|];
      apply in_map_iff in Hin as (x & Hx & Hx'); inversion Hx; subst; exact Hx'.
  - intros l st'. unfold Listing.getCompanyOpportunities.
    destruct (getUserById st uid) as [u|]; [|discriminate].
    destruct (negb (String.eqb (role u) "Company")); [discriminate|].
    pose proof (sync_listed st (filter (fun o => owned_by o (u_id u)) (opportunities st))
                  Hnd (kept_filter _ _)) as H.
    destruct (syncCounts st _) as [ops st''] eqn:E. simpl in H.
    intros Heq o Hin. inversion Heq; subst.
    apply H. eapply Permutation_in; [apply sort_desc_perm | exact Hin].
Qed.

(** C1, counterexample: an opportunity stored without [applicantCount] (as
    the admin controller creates it) and with no applications is returned
    with count 0, but its stored record still has no count. *)
Lemma listing_applicantCount_absent_kept :
  map (fun p => applicantCount (fst p))
      (fst (Listing.getOpportunities Samples.st_admin 2 Samples.q_none)) = [Some 0] /\
  option_map applicantCount
      (getOpportunityById (snd (Listing.getOpportunities Samples.st_admin 2 Samples.q_none)) 7)
    = Some None.
Proof. split; vm_compute; reflexivity. Qed.

(** C1, witness: the statement at the sample store. *)
Lemma listing_applicantCount_synced_witness :
  NoDup (map id (opportunities Samples.st0)) /\
  (forall o f, In (o, f) (fst (Listing.getOpportunities Samples.st0 2 Samples.q_none)) ->
     listed_synced Samples.st0 (snd (Listing.getOpportunities Samples.st0 2 Samples.q_none)) o).
Proof.
  assert (H : NoDup (map id (opportunities Samples.st0)))
    by (simpl; constructor; [intros []|constructor]).
  split; [exact H|].
  exact (proj1 (listing_applicantCount_synced Samples.st0 2 Samples.q_none H)).
Defined.

(** C2 (code bug). [updateOpportunity] (PUT) rejects every caller whose
    role is not Company before its ownership check, so an Admin caller is
    refused with 403 on any opportunity, although that ownership check
    ([... && user.role !== 'Admin']) and the handler's documentation let
    Admins edit any opportunity, as [patchOpportunity] and
    [deleteOpportunity] do. *)
Theorem update_admin_refused : forall st uid oid b u,
  getUserById st uid = Some u -> role u = "Admin" ->
  Opportunities.updateOpportunity st uid oid b =
  (Err 403 "Access denied. Company role required.", st).
Proof.
  intros st uid oid b u Hu Hr. unfold Opportunities.updateOpportunity.
  rewrite Hu, Hr. reflexivity.
Qed.

(** C2, witness: the Admin of the sample store updating opportunity 1 with
    a valid body. *)
Lemma update_admin_refused_witness :
  getUserById Samples.st0 9 = Some Samples.admin /\ role Samples.admin = "Admin" /\
  Opportunities.updateOpportunity Samples.st0 9 1 Samples.body1 =
  (Err 403 "Access denied. Company role required.", Samples.st0).
Proof.
  split; [reflexivity|]. split; [reflexivity|].
  apply (update_admin_refused Samples.st0 9 1 Samples.body1 Samples.admin);
    reflexivity.
Defined.

Lemma hasApplied_In : forall st lp oid,
  hasApplied st lp oid = true <-> In (lp, oid) (map pair_of (applications st)).
Proof.
  intros st lp oid. unfold hasApplied. rewrite existsb_exists. split.
  - intros (a & Ha & Hp). apply andb_true_iff in Hp as [H1 H2].
    apply Z.eqb_eq in H1, H2. apply in_map_iff. exists a. unfold pair_of.
    rewrite H1, H2. split; [reflexivity | exact Ha].
  - intros Hin. apply in_map_iff in Hin as (a & Hp & Ha). exists a.
    split; [exact Ha|]. unfold pair_of in Hp. inversion Hp.
    rewrite !Z.eqb_refl. reflexivity.
Qed.

(** C3 (corrected). For an LP caller and an opportunity that exists and is
    still open, if an application with the same [(lpId, opportunityId)]
    pair exists, [applyToOpportunity] answers 400 "You have already applied
    to this opportunity" and leaves the store (applications included)
    unchanged.  Neither [applyToOpportunity] nor [updateApplicationStatus],
    the only writers of the applications collection, ever creates a second
    application for a pair. *)
Theorem apply_duplicate_rejected :
  (forall st uid oid u o,
     getUserById st uid = Some u -> role u = "LP" ->
     getOpportunityById st oid = Some o -> status o = "open" ->
     In (u_id u, oid) (map pair_of (applications st)) ->
     Opportunities.applyToOpportunity st uid oid =
       (Err 400 "You have already applied to this opportunity", st)) /\
  (forall st uid oid, NoDup (map pair_of (applications st)) ->
     NoDup (map pair_of
       (applications (snd (Opportunities.applyToOpportunity st uid oid))))) /\
  (forall st uid aid s, NoDup (map pair_of (applications st)) ->
     NoDup (map pair_of
       (applications (snd (Opportunities.updateApplicationStatus st uid aid s))))).
Proof.
  split; [|split].
  - intros st uid oid u o Hu Hr Ho Hs Hin. apply hasApplied_In in Hin.
    unfold Opportunities.applyToOpportunity. rewrite Hu, Hr, Ho, Hs. simpl.
    rewrite Hin. reflexivity.
  - intros st uid oid Hnd. unfold Opportunities.applyToOpportunity.
    destruct (getUserById st uid) as [u|]; [|exact Hnd].
    destruct (negb (String.eqb (role u) "LP")); [exact Hnd|].
    destruct (getOpportunityById st oid) as [o|]; [|exact Hnd].
    destruct (negb (JS.str_eqb (status o) "open")); [exact Hnd|].
    destruct (hasApplied st (u_id u) oid) eqn:Eh; [exact Hnd|].
    unfold createApplication, syncOpportunityApplicantCount. cbn zeta beta iota.
    cbn [snd]. rewrite updateOpportunity_applications. simpl applications.
    rewrite map_app. simpl map.
    eapply Permutation_NoDup; [apply Permutation_cons_append|].
    constructor; [|exact Hnd].
    intros Hin. unfold pair_of in Hin. simpl in Hin.
    apply hasApplied_In in Hin. congruence.
  - intros st uid aid s Hnd. unfold Opportunities.updateApplicationStatus.
    destruct (getUserById st uid) as [u|]; [|exact Hnd].
    destruct (_ && _); [exact Hnd|].
    destruct s as [s|]; [|exact Hnd].
    destruct (_ || _); [exact Hnd|].
    destruct (find _ (applications st)) as [a|]; [|exact Hnd].
    destruct (getOpportunityById st (opportunityId a)) as [o|]; [|exact Hnd].
    destruct (Opportunities.denied o u); [exact Hnd|].
    pose proof (updateApplication_pairs st aid s) as H.
    destruct (updateApplication st aid s) as [[a'|] st'] eqn:E;
      simpl in *; rewrite H; exact Hnd.
Qed.

(** C3, witness: LP B applying a second time to the open opportunity 1. *)
Lemma apply_duplicate_rejected_witness :
  Opportunities.applyToOpportunity Samples.st_applied 2 1 =
    (Err 400 "You have already applied to this opportunity", Samples.st_applied) /\
  NoDup (map pair_of (applications
    (snd (Opportunities.applyToOpportunity Samples.st0 2 1)))).
Proof.
  split.
  - apply (proj1 apply_duplicate_rejected Samples.st_applied 2 1 Samples.lpB Samples.opp1);
      try reflexivity. simpl. left. reflexivity.
  - apply (proj1 (proj2 apply_duplicate_rejected) Samples.st0 2 1).
    simpl. constructor.
Defined.

(** C3, counterexample: LP B already applied to opportunity 1, which was
    then closed; a further application is answered with the
    not-open error, not the duplicate error. *)
Lemma apply_duplicate_on_closed :
  In (2, 1) (map pair_of (applications Samples.st_closed)) /\
  fst (Opportunities.applyToOpportunity Samples.st_closed 2 1) =
    Err 400 "This opportunity is not open for applications".
Proof. split; [left; reflexivity | reflexivity]. Qed.

(** C4 (confirmed). For an LP caller and an existing opportunity whose
    status is not "open", [applyToOpportunity] answers 400 "This
    opportunity is not open for applications" and leaves the whole store
    unchanged: no application is created and the opportunity is not
    touched. *)
Theorem apply_not_open_rejected : forall st uid oid u o,
  getUserById st uid = Some u -> role u = "LP" ->
  getOpportunityById st oid = Some o -> status o <> "open" ->
  Opportunities.applyToOpportunity st uid oid =
    (Err 400 "This opportunity is not open for applications", st).
Proof.
  intros st uid oid u o Hu Hr Ho Hs. unfold Opportunities.applyToOpportunity.
  rewrite Hu, Hr, Ho. simpl.
  destruct (str_eqb_spec (status o) "open") as [E|E]; [contradiction | reflexivity].
Qed.

(** C4, witness: LP B applying to the closed opportunity 1. *)
Lemma apply_not_open_rejected_witness :
  Opportunities.applyToOpportunity Samples.st_closed 2 1 =
    (Err 400 "This opportunity is not open for applications", Samples.st_closed).
Proof.
  apply (apply_not_open_rejected Samples.st_closed 2 1 Samples.lpB Samples.opp1_closed);
    try reflexivity. discriminate.
Defined.

Lemma updateOpportunity_fst : forall st oid u o o' st',
  getOpportunityById st oid = Some o ->
  DataService.updateOpportunity st oid u = (Some o', st') ->
  o' = merge o u (now st).
Proof.
  intros st oid u o o' st' Ho E. unfold DataService.updateOpportunity in E.
  pose proof (replace_first_fst oid (fun x => merge x u (now st)) (opportunities st)) as H.
  unfold getOpportunityById in Ho. rewrite Ho in H.
  destruct (replace_first _ _ _) as [[x|] l]; simpl in H; inversion E; subst.
  inversion H. reflexivity.
Qed.

Lemma replace_first_mem : forall k f l x l',
  replace_first k f l = (Some x, l') -> In x l'.
Proof.
  intros k f l. induction l as [|o l IH]; intros x l' H; simpl in H; [discriminate|].
  destruct (id o =? k).
  - inversion H; subst. left. reflexivity.
  - destruct (replace_first k f l) as [r l''] eqn:E. inversion H; subst.
    right. apply (IH x l'' eq_refl).
Qed.

Lemma updateOpportunity_mem : forall st oid u o' st',
  DataService.updateOpportunity st oid u = (Some o', st') -> In o' (opportunities st').
Proof.
  intros st oid u o' st' E. unfold DataService.updateOpportunity in E.
  destruct (replace_first _ _ _) as [[x|] l] eqn:Er; inversion E; subst.
  exact (replace_first_mem _ _ _ _ _ Er).
Qed.

(** C5 (corrected). The full update (PUT), [trackOpportunityView],
    [applyToOpportunity] and both listing reads leave the id and the
    [companyId] of every stored opportunity unchanged; [patchOpportunity]
    spreads its request body over the record, so a successful patch sets
    [companyId] to the body's [companyId] when the body has that key and
    keeps it otherwise; the patched record is stored (under the same id
    when the body has no [id] key). *)
Theorem companyId_kept_except_patch :
  (forall st uid oid b,
     map key_owner (opportunities (snd (Opportunities.updateOpportunity st uid oid b))) =
     map key_owner (opportunities st)) /\
  (forall st caller oid,
     map key_owner (opportunities (snd (Opportunities.trackOpportunityView st caller oid))) =
     map key_owner (opportunities st)) /\
  (forall st uid oid,
     map key_owner (opportunities (snd (Opportunities.applyToOpportunity st uid oid))) =
     map key_owner (opportunities st)) /\
  (forall st uid q,
     map key_owner (opportunities (snd (Listing.getOpportunities st uid q))) =
     map key_owner (opportunities st)) /\
  (forall st uid,
     map key_owner (opportunities (snd (Listing.getCompanyOpportunities st uid))) =
     map key_owner (opportunities st)) /\
  (forall st uid oid upd o o' st',
     getOpportunityById st oid = Some o ->
     Opportunities.patchOpportunity st uid oid upd = (Ok 200 o', st') ->
     companyId o' = pick (up_companyId upd) (companyId o) /\
     In o' (opportunities st') /\
     (up_id upd = None -> getOpportunityById st' oid = Some o')).
Proof.
  split; [|split; [|split; [|split; [|split]]]].
  - intros st uid oid b. unfold Opportunities.updateOpportunity.
    repeat match goal with
    | |- context [DataService.updateOpportunity ?s ?k ?u] =>
        let H := fresh "H" in
        pose proof (updateOpportunity_key_owner s k u (conj eq_refl eq_refl)) as H;
        revert H; destruct (DataService.updateOpportunity s k u) as [[?|] ?];
        simpl; intros H; exact H
    | |- context [match ?x with _ => _ end] => destruct x
    | |- context [if ?b then _ else _] => destruct b
    end; reflexivity.
  - intros st caller oid. unfold Opportunities.trackOpportunityView.
    destruct (getOpportunityById st oid); [|reflexivity].
    apply updateOpportunity_key_owner, keeps_owner_viewCount.
  - intros st uid oid. unfold Opportunities.applyToOpportunity.
    destruct (getUserById st uid) as [u|]; [|reflexivity].
    destruct (negb (String.eqb (role u) "LP")); [reflexivity|].
    destruct (getOpportunityById st oid) as [o|]; [|reflexivity].
    destruct (negb (JS.str_eqb (status o) "open")); [reflexivity|].
    destruct (hasApplied st (u_id u) oid); [reflexivity|].
    unfold createApplication, syncOpportunityApplicantCount. cbn zeta beta iota.
    cbn [snd]. rewrite updateOpportunity_key_owner by apply keeps_owner_applicantCount.
    reflexivity.
  - intros st uid q. unfold Listing.getOpportunities.
    pose proof (syncCounts_apps
      (sort_desc createdAt (filterOpportunities (getUserById st uid) q (opportunities st))) st)
      as (_ & _ & H).
    destruct (syncCounts st _) as [ops st'] eqn:E. exact H.
  - intros st uid. unfold Listing.getCompanyOpportunities.
    destruct (getUserById st uid) as [u|]; [|reflexivity].
    destruct (negb (String.eqb (role u) "Company")); [reflexivity|].
    pose proof (syncCounts_apps (filter (fun o => owned_by o (u_id u)) (opportunities st)) st)
      as (_ & _ & H).
    destruct (syncCounts st _) as [ops st'] eqn:E. exact H.
  - intros st uid oid upd o o' st' Ho. unfold Opportunities.patchOpportunity.
    rewrite Ho.
    destruct (getUserById st uid) as [u|]; [|discriminate].
    destruct (Opportunities.denied o u); [discriminate|].
    destruct (match up_status upd with Some s => _ | None => false end); [discriminate|].
    destruct (DataService.updateOpportunity st oid upd) as [[x|] s'] eqn:E; [|discriminate].
    intros Heq. inversion Heq; subst.
    pose proof (updateOpportunity_fst _ _ _ _ _ _ Ho E) as ->.
    split; [reflexivity|]. split; [exact (updateOpportunity_mem _ _ _ _ _ E)|].
    intros Hid. pose proof (updateOpportunity_find st oid upd oid Hid) as Hf.
    rewrite E, Z.eqb_refl, Ho in Hf. exact Hf.
Qed.

(** C5, witness: company 1 patching its opportunity 1 with
    [{ companyId: 3 }]. *)
Lemma companyId_kept_except_patch_witness :
  getOpportunityById Samples.st0 1 = Some Samples.opp1 /\
  Opportunities.patchOpportunity Samples.st0 1 1 Samples.patch_owner =
    (Ok 200 (merge Samples.opp1 Samples.patch_owner 200),
     snd (Opportunities.patchOpportunity Samples.st0 1 1 Samples.patch_owner)) /\
  getOpportunityById (snd (Opportunities.patchOpportunity Samples.st0 1 1 Samples.patch_owner)) 1
    = Some (merge Samples.opp1 Samples.patch_owner 200) /\
  companyId (merge Samples.opp1 Samples.patch_owner 200) = Some 3.
Proof.
  assert (H1 : getOpportunityById Samples.st0 1 = Some Samples.opp1) by reflexivity.
  assert (H2 : Opportunities.patchOpportunity Samples.st0 1 1 Samples.patch_owner =
    (Ok 200 (merge Samples.opp1 Samples.patch_owner 200),
     snd (Opportunities.patchOpportunity Samples.st0 1 1 Samples.patch_owner)))
    by reflexivity.
  destruct (proj2 (proj2 (proj2 (proj2 (proj2 companyId_kept_except_patch))))
           _ _ _ _ _ _ _ H1 H2) as (Hc & _ & Hl).
  split; [exact H1|]. split; [exact H2|]. split; [exact (Hl eq_refl)|].
  rewrite Hc. reflexivity.
Defined.

(** C5, counterexample: the owner's patch [{ companyId: 3 }] moves
    opportunity 1 from company 1 to user 3. *)
Lemma patch_moves_companyId :
  companyId Samples.opp1 = Some 1 /\
  option_map companyId
    (getOpportunityById (snd (Opportunities.patchOpportunity Samples.st0 1 1 Samples.patch_owner)) 1)
    = Some (Some 3).
Proof. split; vm_compute; reflexivity. Qed.

Lemma filterOpportunities_default_open : forall user q L x,
  q_status q = None -> In x (filterOpportunities user q L) -> status x = "open".
Proof.
  intros user q L x Hq Hin. unfold filterOpportunities in Hin. rewrite Hq in Hin.
  cbn beta iota zeta in Hin.
  replace (JS.truthy "open" && negb (String.eqb "open" "all")) with true in Hin
    by reflexivity.
  cbn iota in Hin.
  repeat match type of Hin with
  | context [match ?x with _ => _ end] => destruct x
  | context [if ?b then _ else _] => destruct b
  end;
  repeat (apply filter_In in Hin as [Hin ?]);
  match goal with H : JS.str_eqb (status x) "open" = true |- _ =>
    revert H; case (str_eqb_spec (status x) "open"); congruence end.
Qed.

Lemma filter_and : forall {A} (p r : A -> bool) l,
  filter p (filter r l) = filter (fun x => r x && p x) l.
Proof.
  intros A p r l. induction l as [|x l IH]; simpl; [reflexivity|].
  destruct (r x); simpl; rewrite ?IH; reflexivity.
Qed.

Lemma filterOpportunities_status : forall user q L,
  let s := match q_status q with Some s => s | None => "open" end in
  let q_all := mkQuery (Some "all") (q_expertise q) (q_timeCommitment q) (q_search q) in
  filterOpportunities user q L =
    if String.eqb s "" || String.eqb s "all" then filterOpportunities user q_all L
    else filter (fun o => JS.str_eqb (status o) s) (filterOpportunities user q_all L).
Proof.
  intros user q L. cbv zeta. unfold filterOpportunities.
  cbn [q_status q_expertise q_timeCommitment q_search].
  generalize (match q_status q with Some s => s | None => "open" end) as s. intros s.
  set (ops1 := match user with Some _ => _ | None => _ end). clearbody ops1.
  replace (JS.truthy "all" && negb ("all" =? "all")%string) with false by reflexivity.
  cbv iota.
  destruct (String.eqb s "") eqn:E1; [unfold JS.truthy; rewrite E1; reflexivity|].
  replace (JS.truthy s) with true by (unfold JS.truthy; rewrite E1; reflexivity).
  destruct (String.eqb s "all") eqn:E2; [reflexivity|].
  replace (true && negb false) with true by reflexivity; cbv iota beta.
  destruct (q_expertise q) as [e|]; [destruct (JS.truthy e && negb (e =? "All")%string)|];
  (destruct (q_timeCommitment q) as [t|]; [destruct (JS.truthy t && negb (t =? "All")%string)|]);
  (destruct (q_search q) as [x|]; [destruct (JS.truthy x)|]);
  rewrite ?filter_and; try reflexivity; apply filter_ext; intros a;
  destruct (JS.str_eqb (status a) s);
  rewrite ?andb_true_l, ?andb_false_l, ?andb_true_r, ?andb_false_r; reflexivity.
Qed.

(** C6 (corrected). The status step of the discovery listing reads
    [const { status = 'open' } = req.query] and filters when the value is
    truthy and not "all": a request with no status parameter is filtered
    by the default status "open" and returns only open opportunities;
    "all" and the empty string disable the step; any other value keeps
    exactly the opportunities whose status equals it, the other steps
    being those of the same request with status "all". *)
Theorem listing_default_status_open :
  (forall user q L,
     let s := match q_status q with Some s => s | None => "open" end in
     let q_all := mkQuery (Some "all") (q_expertise q) (q_timeCommitment q) (q_search q) in
     filterOpportunities user q L =
       if String.eqb s "" || String.eqb s "all" then filterOpportunities user q_all L
       else filter (fun o => JS.str_eqb (status o) s) (filterOpportunities user q_all L)) /\
  (forall st uid q, q_status q = None ->
     forall o f, In (o, f) (fst (Listing.getOpportunities st uid q)) -> status o = "open").
Proof.
  split; [exact filterOpportunities_status|].
  intros st uid q Hq o f. unfold Listing.getOpportunities.
  pose proof (syncCounts_fst
    (sort_desc createdAt (filterOpportunities (getUserById st uid) q (opportunities st))) st) as H.
  destruct (syncCounts st _) as [ops st'] eqn:E. simpl in H |- *. subst ops.
  intros Hin.
  assert (Hin' : In o (map (fun o => set_applicantCount o (count st (id o)))
             (sort_desc createdAt (filterOpportunities (getUserById st uid) q (opportunities st))))).
  { destruct (getUserById st uid) as [u|]; [destruct (String.eqb (role u) "LP")|];
      apply in_map_iff in Hin as (y & Hy & Hy'); inversion Hy; subst; exact Hy'. }
  apply in_map_iff in Hin' as (x & <- & Hx).
  apply (Permutation_in _ (sort_desc_perm _ _)) in Hx.
  simpl. exact (filterOpportunities_default_open _ _ _ _ Hq Hx).
Qed.

(** C6, witness: an LP listing the sample store with an empty query. *)
Lemma listing_default_status_open_witness :
  map (fun p => status (fst p))
    (fst (Listing.getOpportunities Samples.st0 2 Samples.q_none)) = [JStr "open"] /\
  (forall o f, In (o, f) (fst (Listing.getOpportunities Samples.st0 2 Samples.q_none)) ->
     status o = "open").
Proof.
  split; [reflexivity|].
  apply (proj2 listing_default_status_open Samples.st0 2 Samples.q_none). reflexivity.
Defined.

(** C6, counterexample: with the closed opportunity 1 in the store, a
    request without a status parameter returns nothing, while the same
    request with status "all" returns it (so no other filter step removes
    it), and so does the request with an empty status parameter. *)
Lemma listing_no_status_hides_closed :
  fst (Listing.getOpportunities Samples.st_closed 2 Samples.q_none) = [] /\
  map (fun p => id (fst p))
    (fst (Listing.getOpportunities Samples.st_closed 2
            (Listing.mkQuery (Some "all") None None None))) = [1] /\
  map (fun p => id (fst p))
    (fst (Listing.getOpportunities Samples.st_closed 2
            (Listing.mkQuery (Some "") None None None))) = [1].
Proof. split; [|split]; vm_compute; reflexivity. Qed.

Section SortDesc.
Context {A : Type} (key : A -> Z).

Let R (a b : A) : Prop := key b <= key a.

Lemma insert_desc_hd : forall y x l,
  HdRel R y l -> R y x -> HdRel R y (insert_desc key x l).
Proof.
  intros y x [|z zs] Hh Hyx; simpl; [constructor; exact Hyx|].
  destruct (key z <=? key x); constructor; [exact Hyx|].
  inversion Hh; assumption.
Qed.

Lemma insert_desc_sorted : forall x l,
  Sorted R l -> Sorted R (insert_desc key x l).
Proof.
  intros x l. induction l as [|y ys IH]; intros Hs; simpl.
  - repeat constructor.
  - inversion Hs as [|? ? Hs' Hh]; subst.
    destruct (key y <=? key x) eqn:E.
    + constructor; [exact Hs|]. constructor. unfold R. apply Z.leb_le. exact E.
    + constructor; [apply IH; exact Hs'|].
      apply insert_desc_hd; [exact Hh|]. unfold R. apply Z.leb_gt in E. lia.
Qed.

Lemma sort_desc_sorted : forall l, Sorted (fun a b => key b <= key a) (sort_desc key l).
Proof.
  induction l as [|x l IH]; simpl; [constructor|].
  apply insert_desc_sorted. exact IH.
Qed.

End SortDesc.

Lemma matchCount_bounds : forall ue l,
  0 <= LP.matchCount ue l <= Z.of_nat (length l).
Proof.
  intros ue l. unfold LP.matchCount. split; [lia|].
  apply Nat2Z.inj_le. induction l as [|x l IH]; simpl; [lia|].
  destruct (LP.skill_matches ue x); simpl; lia.
Qed.

(** C7 (corrected). When the LP retrieval path ([GET /api/lp/opportunities])
    answers, the caller is an LP user [u], the answer lists exactly the open
    opportunities (each once), every entry's [matchScore] is computed from
    the opportunity's [expertiseNeeded] list (not [requiredExpertise]): 50
    when that list is empty, otherwise [Math.round((m / n) * 100)] in double
    arithmetic, with [n] its length and [m] the number of its entries that
    case-insensitively contain, or are contained in, one of the LP's
    expertise entries ([user.expertise], else [user.expertiseAreas], else
    none).  For every list shorter than [2^32] (the array length limit)
    that is [round(100 * m / n)] when [100 * m / n] is not exactly halfway
    between two integers, and that value or one less when it is.  The
    entries are sorted by [matchScore], greatest first. *)
Theorem lp_match_scores : forall st uid l st',
  LP.getOpportunities st uid = (Ok 200 l, st') ->
  st' = st /\
  exists u, getUserById st uid = Some u /\ role u = "LP" /\
  Permutation (map LP.sc_opp l)
              (filter (fun o => JS.str_eqb (status o) "open") (opportunities st)) /\
  (forall s, In s l ->
     let need := expertiseNeeded (LP.sc_opp s) in
     let n := Z.of_nat (length need) in
     let m := LP.matchCount (LP.userExpertiseOf u) need in
     LP.matchScore s =
       (if 0 <? n then JS.round (JS.mul_int (JS.div m n) 100) else 50) /\
     (0 < n < 2 ^ 32 -> (200 * m + n) mod (2 * n) <> 0 ->
        LP.matchScore s = (200 * m + n) / (2 * n)) /\
     (0 < n < 2 ^ 32 -> (200 * m + n) mod (2 * n) = 0 ->
        LP.matchScore s = (200 * m + n) / (2 * n) \/
        LP.matchScore s = (200 * m + n) / (2 * n) - 1) /\
     LP.isRelevant s = (30 <? LP.matchScore s)) /\
  Sorted (fun a b => LP.matchScore b <= LP.matchScore a) l.
Proof.
  intros st uid l st' E. unfold LP.getOpportunities in E.
  destruct (getUserById st uid) as [u|] eqn:Hu; [|discriminate].
  destruct (String.eqb_spec (role u) "LP") as [Hr|Hr]; [|discriminate].
  simpl in E. inversion E; subst; clear E.
  split; [reflexivity|]. exists u. split; [reflexivity|]. split; [exact Hr|].
  split; [|split].
  - eapply Permutation_trans; [apply Permutation_map, sort_desc_perm|].
    rewrite map_map. simpl. rewrite map_id. reflexivity.
  - intros s Hs. apply (Permutation_in _ (sort_desc_perm _ _)) in Hs.
    apply in_map_iff in Hs as (o & <- & _). simpl.
    pose proof (matchCount_bounds (LP.userExpertiseOf u) (expertiseNeeded o)) as Hb.
    unfold LP.score. split; [reflexivity|]. split; [|split; [|reflexivity]].
    + intros Hn. replace (0 <? _) with true by (symmetry; apply Z.ltb_lt; lia).
      apply (NumFacts.js_score_round _ _ Hb Hn).
    + intros Hn. replace (0 <? _) with true by (symmetry; apply Z.ltb_lt; lia).
      apply (NumFacts.js_score_round _ _ Hb Hn).
  - apply sort_desc_sorted.
Qed.

(** C7, witness: LP B listing the sample store. *)
Lemma lp_match_scores_witness :
  LP.getOpportunities Samples.st0 2 =
    (Ok 200 [LP.mkScored Samples.opp1 50 true], Samples.st0) /\
  Sorted (fun a b => LP.matchScore b <= LP.matchScore a) [LP.mkScored Samples.opp1 50 true].
Proof.
  assert (E : LP.getOpportunities Samples.st0 2 =
                (Ok 200 [LP.mkScored Samples.opp1 50 true], Samples.st0)) by reflexivity.
  split; [exact E|].
  destruct (lp_match_scores _ _ _ _ E) as (_ & u & _ & _ & _ & _ & H). exact H.
Defined.

(** C7, counterexample: LP B (expertise "Marketing") and the open
    opportunity 1 requiring "Marketing": the specified score is 100, the
    answer carries 50 (its [expertiseNeeded] list is empty).  And for the
    open opportunity 5, whose [expertiseNeeded] has 40 entries of which 23
    match, [100 * 23 / 40 = 57.5] rounds to 58, but the double computation
    [(23 / 40) * 100] gives [57.49999999999999] and the answer carries 57. *)
Lemma lp_match_score_uses_expertiseNeeded :
  LP.spec_matchScore Samples.lpB Samples.opp1 = 100 /\
  map LP.matchScore
    (match fst (LP.getOpportunities Samples.st0 2) with Ok _ l => l | Err _ _ => [] end)
    = [50] /\
  LP.matchCount (LP.userExpertiseOf Samples.lpB) (expertiseNeeded Samples.opp_half) = 23 /\
  LP.round_div (100 * 23) 40 = 58 /\
  map LP.matchScore
    (match fst (LP.getOpportunities Samples.st_half 2) with Ok _ l => l | Err _ _ => [] end)
    = [57].
Proof. repeat split; vm_compute; reflexivity. Qed.

Lemma trackView_step : forall st c oid o,
  getOpportunityById st oid = Some o ->
  fst (Opportunities.trackOpportunityView st c oid) = Ok 200 (JS.add (or0 (viewCount o)) 1) /\
  getOpportunityById (snd (Opportunities.trackOpportunityView st c oid)) oid =
    Some (merge o (upd_viewCount (JS.add (or0 (viewCount o)) 1)) (now st)).
Proof.
  intros st c oid o Ho. unfold Opportunities.trackOpportunityView. rewrite Ho.
  split; [reflexivity|]. cbn [snd].
  rewrite updateOpportunity_find by reflexivity. rewrite Z.eqb_refl, Ho. reflexivity.
Qed.

(** C8 (corrected). Calling [trackOpportunityView] on an existing
    opportunity once for each caller of a list of [n] callers (repeats
    allowed: the caller plays no part) answers [v0 + 1], ..., [v0 + n],
    where [v0] is the stored [viewCount || 0], and leaves the stored
    [viewCount] at [v0 + n], provided the counts stay within the exact
    integers of a double ([-2^53 <= v0] and [v0 + n <= 2^53]): each call
    adds exactly 1. *)
Theorem trackViews_adds_n : forall callers st oid o,
  getOpportunityById st oid = Some o ->
  - 2 ^ 53 <= or0 (viewCount o) ->
  or0 (viewCount o) + Z.of_nat (length callers) <= 2 ^ 53 ->
  fst (trackViews st oid callers) =
    map (fun i => Ok 200 (or0 (viewCount o) + Z.of_nat i)) (seq 1 (length callers)) /\
  exists o', getOpportunityById (snd (trackViews st oid callers)) oid = Some o' /\
    or0 (viewCount o') = or0 (viewCount o) + Z.of_nat (length callers) /\
    (callers <> [] ->
     viewCount o' = Some (or0 (viewCount o) + Z.of_nat (length callers))).
Proof.
  induction callers as [|c cs IH]; intros st oid o Ho Hlo Hhi.
  - split; [reflexivity|]. exists o. split; [exact Ho|].
    split; [simpl; lia | intros []; reflexivity].
  - cbn [trackViews]. simpl length in Hhi.
    destruct (trackView_step st c oid o Ho) as [Hr Hs].
    rewrite NumFacts.add_exact in Hr, Hs by lia.
    destruct (Opportunities.trackOpportunityView st c oid) as [r st1] eqn:E1.
    simpl in Hr, Hs. subst r.
    destruct (IH st1 oid _ Hs ltac:(simpl; lia) ltac:(simpl; lia))
      as [Hrs (o' & Ho' & Hv & Hsome)].
    destruct (trackViews st1 oid cs) as [rs st2] eqn:E2. simpl in Hrs, Ho' |- *.
    split.
    + rewrite Hrs. f_equal. rewrite <- (seq_shift _ 1), map_map. apply map_ext.
      intros i. f_equal. rewrite Nat2Z.inj_succ. lia.
    + exists o'. split; [exact Ho'|]. simpl in Hv.
      split; [rewrite Hv; rewrite ?Zpos_P_of_succ_nat, ?Nat2Z.inj_succ; simpl length; rewrite ?Nat2Z.inj_succ; lia|].
      intros _. destruct cs as [|c' cs'].
      * simpl in E2. inversion E2; subst. rewrite Ho' in Hs. inversion Hs. reflexivity.
      * rewrite (Hsome ltac:(discriminate)). f_equal. simpl. lia.
Qed.

(** C8, witness: three views of opportunity 1, two by the same caller. *)
Lemma trackViews_adds_n_witness :
  fst (trackViews Samples.st0 1 [2; 2; 3]) = [Ok 200 1; Ok 200 2; Ok 200 3] /\
  option_map viewCount (getOpportunityById (snd (trackViews Samples.st0 1 [2; 2; 3])) 1)
    = Some (Some 3).
Proof.
  destruct (trackViews_adds_n [2; 2; 3] Samples.st0 1 Samples.opp1 eq_refl
              ltac:(simpl; lia) ltac:(simpl; lia))
    as [H1 (o' & H2 & _ & H3)].
  split; [exact H1|]. rewrite H2. simpl. rewrite (H3 ltac:(discriminate)). reflexivity.
Defined.

(** C8, counterexample: after a patch sets opportunity 1's [viewCount] to
    [2^53], two further views each answer [2^53] and the stored count stays
    [2^53]: in double arithmetic [2^53 + 1 = 2^53], so the calls add
    nothing. *)
Lemma trackViews_stuck_at_2_53 :
  let st1 := snd (Opportunities.patchOpportunity Samples.st0 1 1 Samples.patch_views_big) in
  option_map viewCount (getOpportunityById st1 1) = Some (Some 9007199254740992) /\
  fst (trackViews st1 1 [2; 3]) = [Ok 200 9007199254740992; Ok 200 9007199254740992] /\
  option_map viewCount (getOpportunityById (snd (trackViews st1 1 [2; 3])) 1)
    = Some (Some 9007199254740992).
Proof. repeat split; vm_compute; reflexivity. Qed.

Lemma valid_app_status_truthy : forall s,
  Opportunities.valid_app_status s = true -> JS.truthy s = true.
Proof.
  intros s H. unfold Opportunities.valid_app_status in H.
  apply existsb_exists in H as (x & Hx & He). apply String.eqb_eq in He. subst x.
  simpl in Hx. repeat destruct Hx as [<-|Hx]; try reflexivity. destruct Hx.
Qed.

(** C9 (corrected). For an application whose opportunity no longer exists,
    [updateApplicationStatus] never changes the store, for any caller and
    any body.  An unknown user gets 404 "User not found"; a user whose role
    is neither Company nor Admin (an LP, say) gets 403 "Access denied.
    Company role required."; a Company or Admin caller with a missing or
    invalid status gets 400 "Invalid status. Must be one of: pending,
    reviewed, accepted, rejected"; and a Company or Admin caller sending a
    valid status gets 404 "Associated opportunity not found". *)
Theorem orphan_application_frozen : forall st uid aid s a,
  find (fun a => app_id a =? aid) (applications st) = Some a ->
  getOpportunityById st (opportunityId a) = None ->
  snd (Opportunities.updateApplicationStatus st uid aid s) = st /\
  (getUserById st uid = None ->
     fst (Opportunities.updateApplicationStatus st uid aid s) = Err 404 "User not found") /\
  (forall u, getUserById st uid = Some u ->
     role u <> "Company" -> role u <> "Admin" ->
     fst (Opportunities.updateApplicationStatus st uid aid s) =
       Err 403 "Access denied. Company role required.") /\
  (forall u, getUserById st uid = Some u ->
     (role u = "Company" \/ role u = "Admin") ->
     match s with Some s' => Opportunities.valid_app_status s' = false | None => True end ->
     fst (Opportunities.updateApplicationStatus st uid aid s) =
       Err 400 "Invalid status. Must be one of: pending, reviewed, accepted, rejected") /\
  (forall u s', getUserById st uid = Some u ->
     (role u = "Company" \/ role u = "Admin") ->
     s = Some s' -> Opportunities.valid_app_status s' = true ->
     fst (Opportunities.updateApplicationStatus st uid aid s) =
       Err 404 "Associated opportunity not found").
Proof.
  intros st uid aid s a Ha Ho. split; [|split; [|split; [|split]]].
  - unfold Opportunities.updateApplicationStatus.
    destruct (getUserById st uid) as [u|]; [|reflexivity].
    destruct (_ && _); [reflexivity|].
    destruct s as [s|]; [|reflexivity].
    destruct (_ || _); [reflexivity|].
    rewrite Ha, Ho. reflexivity.
  - intros Hu. unfold Opportunities.updateApplicationStatus. rewrite Hu. reflexivity.
  - intros u Hu Hc Had. unfold Opportunities.updateApplicationStatus. rewrite Hu.
    apply String.eqb_neq in Hc, Had. rewrite Hc, Had. reflexivity.
  - intros u Hu Hr Hs. unfold Opportunities.updateApplicationStatus. rewrite Hu.
    replace (negb (String.eqb (role u) "Company") && negb (String.eqb (role u) "Admin"))
      with false by (destruct Hr as [-> | ->]; reflexivity).
    destruct s as [s|]; [|reflexivity]. rewrite Hs, orb_true_r. reflexivity.
  - intros u s' Hu Hr -> Hv. unfold Opportunities.updateApplicationStatus.
    rewrite Hu, Hv, (valid_app_status_truthy s' Hv).
    destruct Hr as [Hr|Hr]; rewrite Hr; simpl; rewrite Ha, Ho; reflexivity.
Qed.

(** C9, witness: the Admin setting "accepted" on the orphaned application 1. *)
Lemma orphan_application_frozen_witness :
  Opportunities.updateApplicationStatus Samples.st_orphan 9 1 (Some "accepted") =
    (Err 404 "Associated opportunity not found", Samples.st_orphan).
Proof.
  destruct (orphan_application_frozen Samples.st_orphan 9 1 (Some "accepted") Samples.app_b1
              eq_refl eq_refl) as (H1 & _ & _ & _ & H2).
  rewrite (surjective_pairing (Opportunities.updateApplicationStatus _ _ _ _)).
  rewrite H1, (H2 Samples.admin "accepted" eq_refl (or_intror eq_refl) eq_refl eq_refl).
  reflexivity.
Defined.

(** C9, counterexample: LP B asking to update its own orphaned application
    gets 403 "Access denied. Company role required.", not 404. *)
Lemma orphan_application_lp_403 :
  fst (Opportunities.updateApplicationStatus Samples.st_orphan 2 1 (Some "accepted")) =
    Err 403 "Access denied. Company role required.".
Proof. reflexivity. Qed.

Lemma max0_ge : forall xs k, In k xs -> k <= JS.max0 xs.
Proof.
  induction xs as [|x xs IH]; intros k Hk; [destruct Hk|].
  simpl in *. destruct Hk as [<-|Hk]; [lia|]. specialize (IH k Hk). lia.
Qed.

Lemma NoDup_snoc_fresh : forall xs n,
  NoDup xs -> (forall k, In k xs -> k < n) -> NoDup (xs ++ [n]).
Proof.
  intros xs n Hnd Hlt. eapply Permutation_NoDup; [apply Permutation_cons_append|].
  constructor; [|exact Hnd]. intros Hin. specialize (Hlt n Hin). lia.
Qed.

(** C10 (corrected). [createApplication] gives the new application the id
    [max(0, all ids of the collection) + 1] (so 1 for an empty collection
    or one whose ids are all at most 0), which is greater than every id of
    the collection; hence a collection with pairwise distinct ids keeps
    them distinct.  [createOpportunity] does the same in double arithmetic:
    while every opportunity id is at most [2^53 - 1]
    ([Number.MAX_SAFE_INTEGER]), the new id is exactly that successor,
    greater than every id, and distinct ids stay distinct. *)
Theorem create_fresh_ids :
  (forall st d,
     Forall (fun k => k < 2 ^ 53) (map id (opportunities st)) ->
     id (fst (createOpportunity st d)) = JS.max0 (map id (opportunities st)) + 1 /\
     (forall k, In k (map id (opportunities st)) -> k < id (fst (createOpportunity st d))) /\
     (NoDup (map id (opportunities st)) ->
      NoDup (map id (opportunities (snd (createOpportunity st d)))))) /\
  (forall st d,
     app_id (fst (createApplication st d)) = JS.max0 (map app_id (applications st)) + 1 /\
     (forall k, In k (map app_id (applications st)) -> k < app_id (fst (createApplication st d))) /\
     (NoDup (map app_id (applications st)) ->
      NoDup (map app_id (applications (snd (createApplication st d)))))).
Proof.
  split; [intros st d Hb; simpl; rewrite (NumFacts.newId_exact _ Hb); split; [reflexivity|]
         |intros st d; split; [reflexivity|]].
  - assert (Hlt : forall k, In k (map id (opportunities st)) ->
                    k < JS.max0 (map id (opportunities st)) + 1)
      by (intros k Hk; pose proof (max0_ge _ k Hk); lia).
    split; [exact Hlt|]. intros Hnd. simpl. rewrite map_app.
    apply NoDup_snoc_fresh; assumption.
  - assert (Hlt : forall k, In k (map app_id (applications st)) ->
                    k < JS.max0 (map app_id (applications st)) + 1)
      by (intros k Hk; pose proof (max0_ge _ k Hk); lia).
    split; [exact Hlt|]. intros Hnd. simpl. rewrite map_app.
    apply NoDup_snoc_fresh; assumption.
Qed.

(** C10, witness: ids 1 then 2 in the sample stores. *)
Lemma create_fresh_ids_witness :
  NoDup (map id (opportunities (snd (createOpportunity Samples.st0 Samples.data1)))) /\
  id (fst (createOpportunity Samples.st0 Samples.data1)) = 2.
Proof.
  split; [|reflexivity].
  apply (proj1 create_fresh_ids Samples.st0 Samples.data1).
  - simpl. constructor; [lia|constructor].
  - simpl. constructor; [intros []|constructor].
Defined.

(** C10, counterexample: after the owner patches opportunity 1 with
    [{ id: -5 }], the only id present is -5, and the next opportunity
    gets id 1, not -5 + 1; after the patch [{ id: 9007199254740992 }]
    ([2^53]) the next opportunity gets that same id, since [2^53 + 1]
    is not a double. *)
Lemma create_id_after_negative :
  let st1 := snd (Opportunities.patchOpportunity Samples.st0 1 1 Samples.patch_id_neg) in
  let st2 := snd (Opportunities.patchOpportunity Samples.st0 1 1 Samples.patch_id_big) in
  map id (opportunities st1) = [-5] /\
  id (fst (createOpportunity st1 Samples.data1)) = 1 /\
  map id (opportunities st2) = [9007199254740992] /\
  map id (opportunities (snd (createOpportunity st2 Samples.data1))) =
    [9007199254740992; 9007199254740992].
Proof. repeat split; vm_compute; reflexivity. Qed.

(** * Further properties of the store and its handlers *)

Lemma find_app_snoc : forall {A} (p : A -> bool) l x,
  find p (l ++ [x]) =
  match find p l with Some y => Some y | None => if p x then Some x else None end.
Proof.
  intros A p l x. induction l as [|y l IH]; simpl; [reflexivity|].
  destruct (p y); [reflexivity|exact IH].
Qed.

Lemma find_none_all : forall {A} (p : A -> bool) l,
  (forall x, In x l -> p x = false) -> find p l = None.
Proof.
  intros A p l H. induction l as [|y l IH]; simpl; [reflexivity|].
  rewrite (H y (or_introl eq_refl)). apply IH. intros x Hx. apply H. right. exact Hx.
Qed.

Lemma find_id_eq : forall (l : list Opportunity) k o,
  find (fun o => id o =? k) l = Some o -> id o = k.
Proof. intros l k o H. apply find_some in H as [_ H]. apply Z.eqb_eq. exact H. Qed.

Lemma getUserById_id : forall st uid u, getUserById st uid = Some u -> u_id u = uid.
Proof. intros st uid u H. apply find_some in H as [_ H]. apply Z.eqb_eq. exact H. Qed.

Lemma length_filter_eqb : forall {A} (p : A -> bool) l,
  Nat.eqb (length (filter p l)) (length l) = forallb p l.
Proof.
  intros A p l. induction l as [|x l IH]; simpl; [reflexivity|].
  destruct (p x); simpl; [exact IH|].
  apply Nat.eqb_neq. pose proof (filter_length_le p l). lia.
Qed.

Lemma forallb_neg_find : forall (l : list Opportunity) k,
  forallb (fun o => negb (id o =? k)) l =
  match find (fun o => id o =? k) l with Some _ => false | None => true end.
Proof.
  intros l k. induction l as [|o l IH]; simpl; [reflexivity|].
  destruct (id o =? k); simpl; [reflexivity|exact IH].
Qed.

Lemma find_filter_other : forall (l : list Opportunity) k k',
  find (fun o => id o =? k') (filter (fun o => negb (id o =? k)) l) =
  if k' =? k then None else find (fun o => id o =? k') l.
Proof.
  intros l k k'. induction l as [|o l IH]; simpl; [destruct (k' =? k); reflexivity|].
  destruct (id o =? k) eqn:E1; simpl.
  - rewrite IH. destruct (k' =? k) eqn:E2; [reflexivity|].
    destruct (id o =? k') eqn:E3; [|reflexivity].
    apply Z.eqb_eq in E1, E3. apply Z.eqb_neq in E2. congruence.
  - destruct (id o =? k') eqn:E3; [|exact IH].
    destruct (k' =? k) eqn:E2; [|reflexivity].
    apply Z.eqb_eq in E2, E3. apply Z.eqb_neq in E1. congruence.
Qed.

Lemma replace_first_map_gen : forall {B} (g : Opportunity -> B) k f l,
  (forall o, g (f o) = g o) ->
  map g (snd (replace_first k f l)) = map g l.
Proof.
  intros B g k f l Hg. induction l as [|o l IH]; simpl; [reflexivity|].
  destruct (id o =? k); simpl; [rewrite Hg; reflexivity|].
  destruct (replace_first k f l) as [r l'] eqn:E; simpl in *. rewrite IH. reflexivity.
Qed.

Lemma replace_first_none : forall k f l,
  find (fun o => id o =? k) l = None -> replace_first k f l = (None, l).
Proof.
  intros k f l. induction l as [|o l IH]; simpl; [reflexivity|].
  destruct (id o =? k); [discriminate|]. intros H. rewrite (IH H). reflexivity.
Qed.

Lemma replace_first_app_none : forall aid f l,
  find (fun a => app_id a =? aid) l = None -> replace_first_app aid f l = (None, l).
Proof.
  intros aid f l. induction l as [|a l IH]; simpl; [reflexivity|].
  destruct (app_id a =? aid); [discriminate|]. intros H. rewrite (IH H). reflexivity.
Qed.

Lemma replace_first_app_some : forall aid f l a,
  (forall x, app_id (f x) = app_id x) ->
  find (fun a => app_id a =? aid) l = Some a ->
  fst (replace_first_app aid f l) = Some (f a) /\
  find (fun a => app_id a =? aid) (snd (replace_first_app aid f l)) = Some (f a) /\
  (forall k, k <> aid ->
     find (fun a => app_id a =? k) (snd (replace_first_app aid f l)) =
     find (fun a => app_id a =? k) l).
Proof.
  intros aid f l a Hf. induction l as [|x l IH]; simpl; [discriminate|].
  destruct (app_id x =? aid) eqn:E.
  - intros H. inversion H; subst. simpl. rewrite (Hf a), E.
    split; [reflexivity|]. split; [reflexivity|].
    intros k Hk. apply Z.eqb_eq in E.
    destruct (app_id a =? k) eqn:E2; [|reflexivity].
    apply Z.eqb_eq in E2. congruence.
  - intros H. destruct (IH H) as (H1 & H2 & H3).
    destruct (replace_first_app aid f l) as [r l'] eqn:Er; simpl in *.
    rewrite E. split; [exact H1|]. split; [exact H2|].
    intros k Hk. rewrite (H3 k Hk). reflexivity.
Qed.

Lemma create_lookup : forall st d k,
  Forall (fun k => k < 2 ^ 53) (map id (opportunities st)) ->
  getOpportunityById (snd (createOpportunity st d)) k =
  if k =? id (fst (createOpportunity st d)) then Some (fst (createOpportunity st d))
  else getOpportunityById st k.
Proof.
  intros st d k Hb. unfold getOpportunityById, createOpportunity.
  rewrite (NumFacts.newId_exact _ Hb).
  cbn [fst snd opportunities set_opportunities id]. rewrite find_app_snoc.
  destruct (k =? _) eqn:Ek.
  - apply Z.eqb_eq in Ek. subst k. rewrite find_none_all.
    + cbn [id]. rewrite Z.eqb_refl. reflexivity.
    + intros x Hx. apply Z.eqb_neq.
      pose proof (max0_ge (map id (opportunities st)) (id x) (in_map _ _ _ Hx)). lia.
  - destruct (find _ _); [reflexivity|]. cbn [id]. rewrite Z.eqb_sym, Ek. reflexivity.
Qed.

(** X1. While every opportunity id is at most [2^53 - 1], a created
    opportunity is found by its id, and every other lookup is as before. *)
Theorem createOpportunity_lookup : forall st d k,
  Forall (fun k => k < 2 ^ 53) (map id (opportunities st)) ->
  getOpportunityById (snd (createOpportunity st d)) k =
  if k =? id (fst (createOpportunity st d)) then Some (fst (createOpportunity st d))
  else getOpportunityById st k.
Proof. exact create_lookup. Qed.

Lemma createApplication_spec : forall st d,
  let a := fst (createApplication st d) in
  let st' := snd (createApplication st d) in
  app_status a = "pending" /\ pair_of a = (ad_lpId d, ad_opportunityId d) /\
  find (fun x => app_id x =? app_id a) (applications st') = Some a /\
  hasApplied st' (ad_lpId d) (ad_opportunityId d) = true /\
  count st' (ad_opportunityId d) = count st (ad_opportunityId d) + 1 /\
  opportunities st' = opportunities st /\ users st' = users st.
Proof.
  intros st d. unfold createApplication. cbn zeta.
  cbn [fst snd applications opportunities users set_applications app_status pair_of
       lpId opportunityId app_id].
  split; [reflexivity|]. split; [reflexivity|]. split; [|split; [|split; [|split; reflexivity]]].
  - rewrite find_app_snoc. rewrite find_none_all; [cbn [app_id]; rewrite Z.eqb_refl; reflexivity|].
    intros x Hx. apply Z.eqb_neq.
    pose proof (max0_ge (map app_id (applications st)) (app_id x) (in_map _ _ _ Hx)). lia.
  - unfold hasApplied, set_applications. cbn [applications]. rewrite existsb_app. simpl.
    rewrite !Z.eqb_refl. rewrite orb_true_r. reflexivity.
  - unfold count, getApplicationsByOpportunity, set_applications. cbn [applications].
    rewrite filter_app, length_app. simpl. rewrite Z.eqb_refl. simpl. lia.
Qed.

(** X2. [createApplication] stores a pending application for the given
    pair under a fresh id: it is found by that id, [hasApplied] holds for
    the pair, the opportunity's application count grows by one, and the
    other collections are untouched. *)
Theorem createApplication_recorded : forall st d,
  let a := fst (createApplication st d) in
  let st' := snd (createApplication st d) in
  app_status a = "pending" /\ pair_of a = (ad_lpId d, ad_opportunityId d) /\
  find (fun x => app_id x =? app_id a) (applications st') = Some a /\
  hasApplied st' (ad_lpId d) (ad_opportunityId d) = true /\
  count st' (ad_opportunityId d) = count st (ad_opportunityId d) + 1 /\
  opportunities st' = opportunities st /\ users st' = users st.
Proof. exact createApplication_spec. Qed.

Lemma delete_spec : forall st k,
  fst (deleteOpportunity st k) =
    match getOpportunityById st k with Some _ => true | None => false end /\
  (forall k', getOpportunityById (snd (deleteOpportunity st k)) k' =
     if k' =? k then None else getOpportunityById st k') /\
  applications (snd (deleteOpportunity st k)) = applications st /\
  users (snd (deleteOpportunity st k)) = users st.
Proof.
  intros st k. unfold deleteOpportunity, getOpportunityById.
  rewrite length_filter_eqb, forallb_neg_find.
  destruct (find (fun o => id o =? k) (opportunities st)) eqn:Ef; simpl.
  - split; [reflexivity|]. split; [|split; reflexivity].
    intros k'. apply find_filter_other.
  - split; [reflexivity|]. split; [|split; reflexivity].
    intros k'. destruct (k' =? k) eqn:E; [|reflexivity].
    apply Z.eqb_eq in E. subst. exact Ef.
Qed.

(** X3. [deleteOpportunity] reports whether a record with the id existed,
    removes every record with that id and nothing else, and does not touch
    the applications (no cascade) or the users. *)
Theorem deleteOpportunity_lookup : forall st k,
  fst (deleteOpportunity st k) =
    match getOpportunityById st k with Some _ => true | None => false end /\
  (forall k', getOpportunityById (snd (deleteOpportunity st k)) k' =
     if k' =? k then None else getOpportunityById st k') /\
  applications (snd (deleteOpportunity st k)) = applications st /\
  users (snd (deleteOpportunity st k)) = users st.
Proof. exact delete_spec. Qed.

(** X4. [updateOpportunity] on a missing id changes nothing and returns
    [null]; on an existing record, with an update that carries no [id],
    it returns and stores [{ ...o, ...updates, updatedAt }] in place,
    keeping the order of the ids and the applications. *)
Theorem updateOpportunity_effect : forall st k u,
  (getOpportunityById st k = None -> updateOpportunity st k u = (None, st)) /\
  (forall o, getOpportunityById st k = Some o -> up_id u = None ->
     fst (updateOpportunity st k u) = Some (merge o u (now st)) /\
     getOpportunityById (snd (updateOpportunity st k u)) k = Some (merge o u (now st)) /\
     map id (opportunities (snd (updateOpportunity st k u))) = map id (opportunities st) /\
     applications (snd (updateOpportunity st k u)) = applications st).
Proof.
  intros st k u. split.
  - intros H. unfold updateOpportunity. rewrite replace_first_none by exact H. reflexivity.
  - intros o Ho Hid.
    pose proof (replace_first_fst k (fun o => merge o u (now st)) (opportunities st)) as Hf.
    pose proof (updateOpportunity_find st k u k Hid) as Hl.
    rewrite Z.eqb_refl, Ho in Hl. simpl in Hl.
    pose proof (replace_first_map_gen id k (fun o => merge o u (now st)) (opportunities st)
                  (fun o => ltac:(unfold merge; simpl; rewrite Hid; reflexivity))) as Hm.
    split; [|split; [exact Hl|split; [|apply updateOpportunity_applications]]].
    + unfold updateOpportunity. unfold getOpportunityById in Ho. rewrite Ho in Hf.
      destruct (replace_first _ _ _) as [[x|] l]; simpl in *; congruence.
    + unfold updateOpportunity. unfold getOpportunityById in Ho.
      destruct (replace_first _ _ _) as [[x|] l] eqn:E; simpl in *; [exact Hm|].
      rewrite Ho in Hf. discriminate.
Qed.

Lemma syncOpportunityApplicantCount_effect_helper : forall st k,
  fst (syncOpportunityApplicantCount st k) = count st k /\
  getOpportunityById (snd (syncOpportunityApplicantCount st k)) k =
    option_map (fun o => merge o (upd_applicantCount (count st k)) (now st))
               (getOpportunityById st k) /\
  applications (snd (syncOpportunityApplicantCount st k)) = applications st /\
  (getOpportunityById st k = None -> snd (syncOpportunityApplicantCount st k) = st).
Proof.
  intros st k. unfold syncOpportunityApplicantCount. cbn [fst snd].
  split; [reflexivity|]. split; [|split; [apply updateOpportunity_applications|]].
  - rewrite updateOpportunity_find by reflexivity. rewrite Z.eqb_refl. reflexivity.
  - intros H. unfold updateOpportunity. unfold getOpportunityById in H.
    rewrite replace_first_none by exact H. reflexivity.
Qed.

(** X5. [syncOpportunityApplicantCount] returns the number of applications
    of the opportunity and stores exactly that number as its
    [applicantCount] (an existing count is overwritten, an absent one is
    added); for a missing id the store is unchanged. *)
Theorem syncOpportunityApplicantCount_effect : forall st k,
  fst (syncOpportunityApplicantCount st k) = count st k /\
  getOpportunityById (snd (syncOpportunityApplicantCount st k)) k =
    option_map (fun o => merge o (upd_applicantCount (count st k)) (now st))
               (getOpportunityById st k) /\
  applications (snd (syncOpportunityApplicantCount st k)) = applications st /\
  (getOpportunityById st k = None -> snd (syncOpportunityApplicantCount st k) = st).
Proof. exact syncOpportunityApplicantCount_effect_helper. Qed.

(** X6. [updateApplication] on a missing id changes nothing and returns
    [null]; otherwise it returns and stores the application with the new
    status and [updatedAt], in place: the other applications, every
    (lpId, opportunityId) pair and the opportunities are untouched. *)
Theorem updateApplication_effect : forall st aid s,
  (find (fun a => app_id a =? aid) (applications st) = None ->
   updateApplication st aid s = (None, st)) /\
  (forall a, find (fun a => app_id a =? aid) (applications st) = Some a ->
   let a' := mkApplication (app_id a) (lpId a) (lpName a) (lpEmail a) (opportunityId a)
               (opportunityTitle a) (app_companyId a) (app_companyName a) s
               (app_createdAt a) (now st) in
   fst (updateApplication st aid s) = Some a' /\
   find (fun x => app_id x =? aid) (applications (snd (updateApplication st aid s))) = Some a' /\
   (forall k, k <> aid ->
      find (fun x => app_id x =? k) (applications (snd (updateApplication st aid s))) =
      find (fun x => app_id x =? k) (applications st)) /\
   map pair_of (applications (snd (updateApplication st aid s))) = map pair_of (applications st) /\
   opportunities (snd (updateApplication st aid s)) = opportunities st).
Proof.
  intros st aid s. split.
  - intros H. unfold updateApplication. rewrite replace_first_app_none by exact H. reflexivity.
  - intros a Ha. cbn zeta.
    pose proof (updateApplication_pairs st aid s) as Hp.
    unfold updateApplication in *.
    destruct (replace_first_app_some aid
      (fun a => mkApplication (app_id a) (lpId a) (lpName a) (lpEmail a)
               (opportunityId a) (opportunityTitle a) (app_companyId a)
               (app_companyName a) s (app_createdAt a) (now st))
      (applications st) a (fun x => eq_refl) Ha) as (H1 & H2 & H3).
    destruct (replace_first_app _ _ _) as [[x|] l]; simpl in *; [|discriminate].
    inversion H1; subst. repeat split; assumption.
Qed.

Ltac split_matches :=
  repeat match goal with
         | |- context [match ?x with _ => _ end] => let E := fresh "E" in destruct x eqn:E
         | |- context [if ?b then _ else _] => let E := fresh "E" in destruct b eqn:E
         end.

Lemma required_some : forall x t,
  Opportunities.required x = Some t ->
  exists s, x = Some s /\ t = JS.trim s /\ JS.truthy t = true.
Proof.
  intros [s|] t H; simpl in H; [|discriminate].
  destruct (JS.truthy (JS.trim s)) eqn:E; [|discriminate].
  inversion H; subst. exists s. repeat split. exact E.
Qed.

Lemma negb_eqb_false : forall a b, negb (String.eqb a b) = false -> a = b.
Proof. intros a b H. apply negb_false_iff, String.eqb_eq in H. exact H. Qed.


Lemma updateOpportunity_Some : forall st k u o o' st',
  getOpportunityById st k = Some o ->
  updateOpportunity st k u = (Some o', st') -> o' = merge o u (now st).
Proof.
  intros st k u o o' st' Ho. unfold updateOpportunity.
  pose proof (replace_first_fst k (fun o => merge o u (now st)) (opportunities st)) as Hf.
  unfold getOpportunityById in Ho. rewrite Ho in Hf.
  destruct (replace_first _ _ _) as [[x|] l]; simpl in *; congruence.
Qed.

Lemma updateOpportunity_exists : forall st k u o,
  getOpportunityById st k = Some o ->
  fst (updateOpportunity st k u) = Some (merge o u (now st)).
Proof.
  intros st k u o Ho. unfold updateOpportunity.
  pose proof (replace_first_fst k (fun o => merge o u (now st)) (opportunities st)) as Hf.
  unfold getOpportunityById in Ho. rewrite Ho in Hf.
  destruct (replace_first _ _ _) as [[x|] l]; simpl in *; congruence.
Qed.

(** Not denied: the caller owns the opportunity or is an Admin. *)
Lemma denied_false : forall o u,
  Opportunities.denied o u = false ->
  companyId o = Some (u_id u) \/ role u = "Admin".
Proof.
  intros o u H. unfold Opportunities.denied in H.
  apply andb_false_iff in H as [H|H]; apply negb_false_iff in H.
  - left. destruct (companyId o) as [c|]; [|discriminate].
    apply Z.eqb_eq in H. subst. reflexivity.
  - right. apply String.eqb_eq. exact H.
Qed.

(** X7. A company's [createOpportunity] (POST /api/opportunities) changes
    nothing when it fails; when it succeeds the caller is a Company user
    and the stored opportunity, appended at the end, has the trimmed
    non-blank title, the non-empty submitted expertise list with its blank
    entries removed (possibly leaving it empty), the caller as owner,
    status "open" and both counters at 0; while every opportunity id is at
    most [2^53 - 1], its id is greater than every earlier id. *)
Theorem company_createOpportunity_effect : forall nm st uid b,
  (forall c m st', Handlers.createOpportunity nm st uid b = (Err c m, st') -> st' = st) /\
  (forall c o st', Handlers.createOpportunity nm st uid b = (Ok c o, st') ->
     exists u t re,
       getUserById st uid = Some u /\ role u = "Company" /\ c = 201 /\
       Opportunities.b_title b = Some t /\ title o = JS.trim t /\
       JS.truthy (title o) = true /\
       Opportunities.b_requiredExpertise b = Some re /\ re <> [] /\
       requiredExpertise o = filter (fun e => JS.truthy (JS.trim e)) re /\
       companyId o = Some (u_id u) /\ status o = "open" /\
       viewCount o = Some 0 /\ applicantCount o = Some 0 /\
       opportunities st' = (opportunities st ++ [o])%list /\
       (Forall (fun k => k < 2 ^ 53) (map id (opportunities st)) ->
        forall k, In k (map id (opportunities st)) -> k < id o)).
Proof.
  intros nm st uid b. unfold Handlers.createOpportunity, DataService.createOpportunity.
  cbv beta iota zeta. split.
  - intros c m st'. split_matches; intros H; inversion H; reflexivity.
  - intros c o st' H.
    destruct (getUserById st uid) as [u|] eqn:Hu; [|discriminate].
    destruct (negb (String.eqb (role u) "Company")) eqn:Hr; [discriminate|].
    destruct (Opportunities.required (Opportunities.b_title b)) as [t|] eqn:Ht; [|discriminate].
    destruct (Opportunities.required (Opportunities.b_description b)) as [d|]; [|discriminate].
    destruct (Opportunities.b_requiredExpertise b) as [[|e re]|] eqn:Hre; try discriminate.
    destruct (Opportunities.required (Opportunities.b_timeCommitment b)) as [tc|]; [|discriminate].
    destruct (Opportunities.required (Opportunities.b_compensation b)) as [cp|]; [|discriminate].
    inversion H; subst; clear H.
    apply required_some in Ht as (t0 & Ht & -> & Htr).
    exists u, t0, (e :: re). cbn [id title requiredExpertise companyId status viewCount
      applicantCount opportunities set_opportunities].
    repeat split; try assumption; try reflexivity.
    + apply negb_eqb_false. exact Hr.
    + discriminate.
    + intros Hb k Hk. rewrite (NumFacts.newId_exact _ Hb). pose proof (max0_ge _ k Hk). lia.
Qed.

(** X8. The applications listing of an opportunity never changes the
    store; when it answers, the caller is an Admin or the Company owning
    the opportunity, and the answer is exactly the opportunity's
    applications, newest first.  An Admin is always answered for an
    existing opportunity. *)
Theorem getOpportunityApplications_result : forall st uid oid,
  (forall r st', Handlers.getOpportunityApplications st uid oid = (r, st') -> st' = st) /\
  (forall c l st', Handlers.getOpportunityApplications st uid oid = (Ok c l, st') ->
     c = 200 /\ Permutation l (getApplicationsByOpportunity st oid) /\
     Sorted (fun a b => app_createdAt b <= app_createdAt a) l /\
     exists u o, getUserById st uid = Some u /\ getOpportunityById st oid = Some o /\
       (role u = "Admin" \/ (role u = "Company" /\ companyId o = Some (u_id u)))) /\
  (forall u o, getUserById st uid = Some u -> role u = "Admin" ->
     getOpportunityById st oid = Some o ->
     fst (Handlers.getOpportunityApplications st uid oid) =
       Ok 200 (sort_desc app_createdAt (getApplicationsByOpportunity st oid))).
Proof.
  intros st uid oid. unfold Handlers.getOpportunityApplications. split; [|split].
  - intros r st'. split_matches; intros H; inversion H; reflexivity.
  - intros c l st' H.
    destruct (getUserById st uid) as [u|]; [|discriminate].
    destruct (negb (String.eqb (role u) "Company") && negb (String.eqb (role u) "Admin"))
      eqn:Hg; [discriminate|].
    destruct (getOpportunityById st oid) as [o|]; [|discriminate].
    destruct (Opportunities.denied o u) eqn:Hd; [discriminate|].
    inversion H; subst; clear H.
    split; [reflexivity|]. split; [apply sort_desc_perm|]. split; [apply sort_desc_sorted|].
    exists u, o. split; [reflexivity|]. split; [reflexivity|].
    destruct (denied_false o u Hd) as [Ho|Ha]; [|left; exact Ha].
    destruct (String.eqb_spec (role u) "Admin") as [Ha|Ha]; [left; exact Ha|].
    right. split; [|exact Ho].
    apply andb_false_iff in Hg as [Hg|Hg]; [apply negb_eqb_false in Hg; exact Hg|discriminate].
  - intros u o Hu Hr Ho. rewrite Hu, Ho, Hr. simpl.
    unfold Opportunities.denied. rewrite Hr. rewrite andb_false_r. reflexivity.
Qed.

(** X9. The admin status update refuses a missing or unknown status (only
    "open", "matched" and "closed" are accepted) and a missing opportunity,
    changing nothing; otherwise it returns and stores the record with the
    new status, keeping ids, owners and applications, and once the status
    is not "open" every LP's application to it is refused as not open. *)
Theorem admin_updateOpportunityStatus_effect : forall st oid s,
  (forall so, match so with Some s' => Admin.valid_status s' = false | None => True end ->
     Admin.updateOpportunityStatus st oid so = (Err 400 Admin.invalid_status_msg, st)) /\
  (getOpportunityById st oid = None -> Admin.valid_status s = true ->
     Admin.updateOpportunityStatus st oid (Some s) = (Err 404 "Opportunity not found", st)) /\
  (forall o, getOpportunityById st oid = Some o -> Admin.valid_status s = true ->
     let st' := snd (Admin.updateOpportunityStatus st oid (Some s)) in
     fst (Admin.updateOpportunityStatus st oid (Some s)) =
       Ok 200 (merge o (Admin.upd_status s) (now st)) /\
     getOpportunityById st' oid = Some (merge o (Admin.upd_status s) (now st)) /\
     map key_owner (opportunities st') = map key_owner (opportunities st) /\
     applications st' = applications st /\
     (s <> "open" -> forall uid u, getUserById st' uid = Some u -> role u = "LP" ->
        fst (Opportunities.applyToOpportunity st' uid oid) =
          Err 400 "This opportunity is not open for applications")).
Proof.
  intros st oid s. split; [|split].
  - intros [s'|] H; simpl; [rewrite H|]; reflexivity.
  - intros Ho Hv. simpl. rewrite Hv. unfold updateOpportunity.
    unfold getOpportunityById in Ho. rewrite replace_first_none by exact Ho. reflexivity.
  - intros o Ho Hv. cbn zeta.
    assert (Hl : getOpportunityById (snd (updateOpportunity st oid (Admin.upd_status s))) oid =
                 Some (merge o (Admin.upd_status s) (now st)))
      by (rewrite updateOpportunity_find by reflexivity; rewrite Z.eqb_refl, Ho; reflexivity).
    assert (Hk := updateOpportunity_key_owner st oid (Admin.upd_status s) (conj eq_refl eq_refl)).
    assert (Ha := updateOpportunity_applications st oid (Admin.upd_status s)).
    assert (Hs := updateOpportunity_Some st oid (Admin.upd_status s) o).
    simpl. rewrite Hv.
    destruct (updateOpportunity st oid (Admin.upd_status s)) as [[o'|] st'] eqn:E;
      simpl in *.
    + rewrite (Hs o' st' Ho eq_refl) in *. split; [reflexivity|].
      split; [exact Hl|]. split; [exact Hk|]. split; [exact Ha|].
      intros Hne uid u Hu Hr. unfold Opportunities.applyToOpportunity.
      rewrite Hu, Hr. simpl. rewrite Hl. simpl.
      destruct (String.eqb_spec s "open") as [He|He]; [contradiction|]. reflexivity.
    + pose proof (updateOpportunity_exists st oid (Admin.upd_status s) o Ho) as Hx.
      rewrite E in Hx. discriminate.
Qed.




(** A record of the list after [replace_first] is the replaced one (with
    the id looked up) or an untouched record with another id. *)
Lemma replace_first_in : forall k f l o',
  (forall o, id (f o) = id o) -> NoDup (map id l) ->
  In o' (snd (replace_first k f l)) ->
  (id o' = k /\ exists o, o' = f o /\ In o l) \/ (id o' <> k /\ In o' l).
Proof.
  intros k f l o' Hf. induction l as [|o l IH]; intros Hnd Hin; [destruct Hin|].
  inversion Hnd as [|? ? Hnot Hnd']; subst. simpl in Hin.
  destruct (id o =? k) eqn:E.
  - apply Z.eqb_eq in E. destruct Hin as [<-|Hin].
    + left. split; [rewrite Hf; exact E|]. exists o. split; [reflexivity|left; reflexivity].
    + right. split; [|right; exact Hin].
      intros He. apply Hnot. rewrite E, <- He. apply in_map. exact Hin.
  - destruct (replace_first k f l) as [r l''] eqn:Er. simpl in Hin.
    destruct Hin as [<-|Hin].
    + right. split; [apply Z.eqb_neq; exact E|left; reflexivity].
    + destruct (IH Hnd' Hin) as [(H1 & x & H2 & H3)|(H1 & H2)].
      * left. split; [exact H1|]. exists x. split; [exact H2|right; exact H3].
      * right. split; [exact H1|right; exact H2].
Qed.

Lemma map_id_key_owner : forall l, map id l = map fst (map key_owner l).
Proof. intros l. rewrite map_map. reflexivity. Qed.

Lemma sync_step : forall st k,
  NoDup (map id (opportunities st)) ->
  let st1 := snd (syncOpportunityApplicantCount st k) in
  map key_owner (opportunities st1) = map key_owner (opportunities st) /\
  applications st1 = applications st /\
  (forall o', In o' (opportunities st1) ->
     (id o' = k /\ applicantCount o' = Some (count st k)) \/
     (id o' <> k /\ In o' (opportunities st))).
Proof.
  intros st k Hnd. unfold syncOpportunityApplicantCount. cbn zeta. cbn [snd].
  split; [apply updateOpportunity_key_owner, keeps_owner_applicantCount|].
  split; [apply updateOpportunity_applications|].
  intros o'. unfold updateOpportunity.
  pose proof (replace_first_fst k
    (fun o => merge o (upd_applicantCount (count st k)) (now st)) (opportunities st)) as Hf.
  pose proof (replace_first_in k
    (fun o => merge o (upd_applicantCount (count st k)) (now st)) (opportunities st) o'
    (fun o => eq_refl) Hnd) as Hi.
  destruct (replace_first _ _ _) as [[x|] l] eqn:E; simpl in *.
  - intros Hin. destruct (Hi Hin) as [(H1 & y & -> & _)|H]; [left|right; exact H].
    split; [exact H1|reflexivity].
  - intros Hin. right. split; [|exact Hin].
    intros He. subst k.
    destruct (find (fun o => id o =? id o') (opportunities st)) eqn:Ef; [discriminate|].
    pose proof (find_none _ _ Ef o' Hin) as Hc. simpl in Hc. rewrite Z.eqb_refl in Hc.
    discriminate.
Qed.

Lemma syncLoop_inv : forall l st ps,
  NoDup (map id (opportunities st)) ->
  (forall o', In o' (opportunities st) -> In (id o') ps ->
     applicantCount o' = Some (count st (id o'))) ->
  let st' := snd (Admin.syncLoop st l) in
  map key_owner (opportunities st') = map key_owner (opportunities st) /\
  applications st' = applications st /\
  (forall o', In o' (opportunities st') -> In (id o') (ps ++ map id l)%list ->
     applicantCount o' = Some (count st (id o'))) /\
  map Admin.sr_id (fst (Admin.syncLoop st l)) = map id l /\
  map Admin.actualCount (fst (Admin.syncLoop st l)) = map (fun o => count st (id o)) l /\
  map Admin.previousCount (fst (Admin.syncLoop st l)) = map (fun o => or0 (applicantCount o)) l.
Proof.
  induction l as [|o l IH]; intros st ps Hnd Hinv.
  - simpl. repeat split. intros o' H1 H2. rewrite app_nil_r in H2. apply Hinv; assumption.
  - cbn [Admin.syncLoop].
    destruct (sync_step st (id o) Hnd) as (Hk & Ha & Hs).
    assert (Hn : fst (syncOpportunityApplicantCount st (id o)) = count st (id o)) by reflexivity.
    destruct (syncOpportunityApplicantCount st (id o)) as [n st1] eqn:E1. simpl in Hk, Ha, Hs, Hn.
    subst n.
    assert (Hnd1 : NoDup (map id (opportunities st1)))
      by (rewrite map_id_key_owner, Hk, <- map_id_key_owner; exact Hnd).
    assert (Hc : forall k, count st1 k = count st k) by (intros; apply count_apps; exact Ha).
    destruct (IH st1 (ps ++ [id o])%list Hnd1) as (Hk2 & Ha2 & Hs2 & Hi2 & Hc2 & Hp2).
    { intros o' Hin Hps. rewrite Hc. destruct (Hs o' Hin) as [(H1 & H2)|(H1 & H2)].
      - rewrite H1. exact H2.
      - apply in_app_or in Hps as [Hps|[Hps|[]]]; [|congruence].
        apply Hinv; assumption. }
    destruct (Admin.syncLoop st1 l) as [r st2] eqn:E2. simpl in *.
    split; [congruence|]. split; [congruence|]. split.
    + intros o' Hin Hps. rewrite <- Hc. apply Hs2; [exact Hin|].
      rewrite <- app_assoc. exact Hps.
    + split; [rewrite Hi2; reflexivity|]. split; [|rewrite Hp2; reflexivity].
      rewrite Hc2. f_equal. apply map_ext. intros x. apply Hc.
Qed.

(** X13. In a store whose opportunity ids are pairwise distinct, the admin
    bulk sync answers one result per opportunity, in order, with its id,
    its previous count ([applicantCount || 0]) and its actual number of
    applications; afterwards every stored opportunity carries exactly that
    number as [applicantCount] (also where the field was absent), with ids,
    owners and applications unchanged. *)
Theorem admin_syncApplicantCounts_effect : forall st,
  NoDup (map id (opportunities st)) ->
  exists res, fst (Admin.syncApplicantCounts st) = Ok 200 res /\
   map Admin.sr_id res = map id (opportunities st) /\
   map Admin.previousCount res = map (fun o => or0 (applicantCount o)) (opportunities st) /\
   map Admin.actualCount res = map (fun o => count st (id o)) (opportunities st) /\
   let st' := snd (Admin.syncApplicantCounts st) in
   map key_owner (opportunities st') = map key_owner (opportunities st) /\
   applications st' = applications st /\
   (forall o', In o' (opportunities st') -> applicantCount o' = Some (count st' (id o'))).
Proof.
  intros st Hnd.
  destruct (syncLoop_inv (opportunities st) st [] Hnd (fun _ _ H => match H with end))
    as (Hk & Ha & Hs & Hi & Hc & Hp).
  unfold Admin.syncApplicantCounts.
  destruct (Admin.syncLoop st (opportunities st)) as [r st'] eqn:E. simpl in *.
  exists r. split; [reflexivity|]. split; [exact Hi|]. split; [exact Hp|]. split; [exact Hc|].
  split; [exact Hk|]. split; [exact Ha|].
  intros o' Hin. rewrite (count_apps st st' _ Ha). apply Hs; [exact Hin|].
  rewrite map_id_key_owner, <- Hk, <- map_id_key_owner. apply in_map. exact Hin.
Qed.


(** X15. [expressInterest] never records an application: the applications
    are unchanged (so [hasApplied] and every applicant count are as
    before), and so are every opportunity's id, owner, status,
    [applicantCount] and [viewCount].  An LP caller is answered 200 for any
    existing open opportunity, whose [applications] counter becomes
    [applications + 1] (a number [n] with [|n + 1| <= 2^53] becomes
    exactly [n + 1]) and whose [updatedAt] becomes the current time. *)
Theorem expressInterest_no_application : forall st uid oid,
  let st' := snd (Interest.expressInterest st uid oid) in
  applications st' = applications st /\
  map key_owner (opportunities st') = map key_owner (opportunities st) /\
  (forall k, option_map (fun o => (status o, applicantCount o, viewCount o))
                        (getOpportunityById st' k) =
             option_map (fun o => (status o, applicantCount o, viewCount o))
                        (getOpportunityById st k)) /\
  (forall u o, getUserById st uid = Some u -> role u = "LP" ->
     getOpportunityById st oid = Some o -> status o = "open" ->
     fst (Interest.expressInterest st uid oid) = Ok 200 (oid, uid) /\
     exists o', getOpportunityById st' oid = Some o' /\
       opp_applications o' = Some (Interest.plus_one (opp_applications o)) /\
       (forall n, opp_applications o = Some (JNum n) -> - 2 ^ 53 <= n + 1 <= 2 ^ 53 ->
          opp_applications o' = Some (JNum (n + 1))) /\
       updatedAt o' = now st).
Proof.
  intros st uid oid. cbn zeta. unfold Interest.expressInterest.
  assert (Hall : forall v,
    applications (snd (updateOpportunity st oid (Interest.upd_applications v))) =
      applications st /\
    map key_owner (opportunities (snd (updateOpportunity st oid (Interest.upd_applications v)))) =
      map key_owner (opportunities st) /\
    (forall k, option_map (fun o => (status o, applicantCount o, viewCount o))
       (getOpportunityById (snd (updateOpportunity st oid (Interest.upd_applications v))) k) =
     option_map (fun o => (status o, applicantCount o, viewCount o)) (getOpportunityById st k))).
  { intros v. split; [apply updateOpportunity_applications|].
    split; [apply updateOpportunity_key_owner; split; reflexivity|].
    intros k. rewrite updateOpportunity_find by reflexivity.
    destruct (k =? oid) eqn:E; [apply Z.eqb_eq in E; subst k|reflexivity].
    destruct (getOpportunityById st oid); reflexivity. }
  split; [|split; [|split]].
  - split_matches; simpl; try reflexivity. apply Hall.
  - split_matches; simpl; try reflexivity. apply Hall.
  - split_matches; simpl; try reflexivity. apply Hall.
  - intros u o Hu Hr Ho Hs. rewrite Hu, Hr, Ho, Hs. simpl. split; [reflexivity|].
    rewrite updateOpportunity_find by reflexivity. rewrite Z.eqb_refl, Ho. simpl.
    eexists. split; [reflexivity|]. simpl. split; [reflexivity|]. split; [|reflexivity].
    intros n Hn Hb. rewrite Hn. simpl. rewrite NumFacts.add_exact by exact Hb. reflexivity.
Qed.

(** X16. A successful application is answered 201 with an id above every
    existing application id; the LP had not applied before and has now,
    with a pending application of the pair stored under that id; the
    opportunity's number of applications grows by one and its stored
    [applicantCount] equals the new number, its status still "open". *)
Theorem apply_success_effect : forall st uid oid c aid st',
  Opportunities.applyToOpportunity st uid oid = (Ok c aid, st') ->
  c = 201 /\ hasApplied st uid oid = false /\ hasApplied st' uid oid = true /\
  count st' oid = count st oid + 1 /\
  (forall k, In k (map app_id (applications st)) -> k < aid) /\
  (exists a, find (fun x => app_id x =? aid) (applications st') = Some a /\
     app_status a = "pending" /\ pair_of a = (uid, oid)) /\
  (exists o', getOpportunityById st' oid = Some o' /\
     applicantCount o' = Some (count st' oid) /\ status o' = "open").
Proof.
  intros st uid oid c aid st' H. unfold Opportunities.applyToOpportunity in H.
  destruct (getUserById st uid) as [u|] eqn:Hu; [|discriminate].
  pose proof (getUserById_id st uid u Hu) as Hid.
  destruct (negb (String.eqb (role u) "LP")); [discriminate|].
  destruct (getOpportunityById st oid) as [o|] eqn:Ho; [|discriminate].
  destruct (negb (JS.str_eqb (status o) "open")) eqn:Hs; [discriminate|].
  apply negb_false_iff in Hs. destruct (str_eqb_spec (status o) "open") as [Hs'|];
    [clear Hs; rename Hs' into Hs|discriminate].
  destruct (hasApplied st (u_id u) oid) eqn:Hh; [discriminate|].
  match type of H with
  | context [createApplication st ?d] =>
      destruct (createApplication_spec st d) as (Hp & Hpair & Hf & Hh1 & Hc1 & Ho1 & _);
      assert (Hlt : forall k, In k (map app_id (applications st)) ->
                      k < app_id (fst (createApplication st d)))
        by (intros k Hk; pose proof (max0_ge _ k Hk); simpl; lia);
      destruct (createApplication st d) as [a st1] eqn:E
  end.
  cbv beta iota zeta in H. simpl in Hp, Hpair, Hf, Hh1, Hc1, Ho1, Hlt.
  destruct (syncOpportunityApplicantCount_effect_helper st1 oid) as (_ & Hl & Ha & _).
  assert (Heq : c = 201 /\ aid = app_id a /\ st' = snd (syncOpportunityApplicantCount st1 oid))
    by (inversion H; repeat split).
  destruct Heq as (-> & -> & ->). clear H. subst uid.
  assert (Hc2 : count (snd (syncOpportunityApplicantCount st1 oid)) oid = count st1 oid)
    by (apply count_apps; exact Ha).
  split; [reflexivity|]. split; [exact Hh|].
  split; [unfold hasApplied in *; rewrite Ha; exact Hh1|].
  split; [rewrite Hc2; exact Hc1|].
  split; [exact Hlt|].
  split.
  - exists a. rewrite Ha. split; [exact Hf|]. split; [exact Hp|exact Hpair].
  - unfold getOpportunityById in Hl at 2. rewrite Ho1 in Hl. fold (getOpportunityById st oid) in Hl.
    rewrite Ho in Hl. cbn [option_map] in Hl. eexists. split; [exact Hl|].
    rewrite Hc2. split; [reflexivity|exact Hs].
Qed.

Lemma filterOpportunities_company : forall u q L,
  role u = "Company" ->
  filterOpportunities (Some u) q L =
  filterOpportunities None q (filter (fun o => negb (owned_by o (u_id u))) L).
Proof.
  intros u q L Hr. unfold filterOpportunities. rewrite Hr. reflexivity.
Qed.

Lemma owned_by_true : forall o k, owned_by o k = true -> companyId o = Some k.
Proof.
  intros o k. unfold owned_by. destruct (companyId o) as [c|]; [|discriminate].
  intros H. apply Z.eqb_eq in H. subst. reflexivity.
Qed.

(** X17. In the discovery listing a Company caller never sees an
    opportunity it owns, and its entries carry no [hasApplied] flag. *)
Theorem listing_hides_own : forall st uid q u o f,
  getUserById st uid = Some u -> role u = "Company" ->
  In (o, f) (fst (Listing.getOpportunities st uid q)) ->
  companyId o <> Some uid /\ f = None.
Proof.
  intros st uid q u o f Hu Hr. pose proof (getUserById_id st uid u Hu) as Hid.
  unfold Listing.getOpportunities. rewrite Hu.
  set (l := sort_desc createdAt (filterOpportunities (Some u) q (opportunities st))).
  pose proof (syncCounts_fst l st) as Hf.
  destruct (syncCounts st l) as [ops st'] eqn:E. simpl in Hf. subst ops.
  rewrite Hr. simpl. intros Hin.
  apply in_map_iff in Hin as (x & Hx & Hin). inversion Hx; subst; clear Hx.
  apply in_map_iff in Hin as (y & <- & Hy).
  split; [|reflexivity].
  apply (Permutation_in _ (sort_desc_perm _ _)) in Hy.
  rewrite filterOpportunities_company in Hy by exact Hr.
  destruct (filterOpportunities_kept None q
              (filter (fun o => negb (owned_by o (u_id u))) (opportunities st))) as [Hincl _].
  apply Hincl, filter_In in Hy as [_ Hy].
  simpl. intros Hc. unfold owned_by in Hy. rewrite Hc, Z.eqb_refl in Hy. discriminate.
Qed.

(** X18. The company listing answers exactly the caller's own
    opportunities (each stored one once), owned by the caller, newest
    first. *)
Theorem company_listing_own : forall st uid l st',
  Listing.getCompanyOpportunities st uid = (Ok 200 l, st') ->
  exists u, getUserById st uid = Some u /\ role u = "Company" /\
    Permutation (map id l) (map id (filter (fun o => owned_by o uid) (opportunities st))) /\
    (forall o, In o l -> companyId o = Some uid) /\
    Sorted (fun a b => createdAt b <= createdAt a) l.
Proof.
  intros st uid l st' H. unfold Listing.getCompanyOpportunities in H.
  destruct (getUserById st uid) as [u|] eqn:Hu; [|discriminate].
  pose proof (getUserById_id st uid u Hu) as Hid.
  destruct (negb (String.eqb (role u) "Company")) eqn:Hr; [discriminate|].
  set (F := filter (fun o => owned_by o (u_id u)) (opportunities st)) in H.
  pose proof (syncCounts_fst F st) as Hf.
  destruct (syncCounts st F) as [ops st''] eqn:E. simpl in Hf. subst ops.
  inversion H; subst; clear H.
  exists u. split; [reflexivity|]. split; [apply negb_eqb_false; exact Hr|].
  split; [|split].
  - eapply Permutation_trans; [apply Permutation_map, sort_desc_perm|].
    rewrite map_map. simpl. apply Permutation_refl.
  - intros o Ho. apply (Permutation_in _ (sort_desc_perm _ _)) in Ho.
    apply in_map_iff in Ho as (x & <- & Hx). apply filter_In in Hx as [_ Hx].
    simpl. apply owned_by_true. exact Hx.
  - apply sort_desc_sorted.
Qed.

(** X19. A successful application status update is answered 200 to an
    Admin or to the Company owning the application's opportunity, for a
    valid status; it returns and stores the application with that status
    and a new [updatedAt], everything else of it unchanged, and leaves the
    opportunities alone. *)
Theorem updateApplicationStatus_success : forall st uid aid s c a' st',
  Opportunities.updateApplicationStatus st uid aid s = (Ok c a', st') ->
  exists u a o s', getUserById st uid = Some u /\ s = Some s' /\
    Opportunities.valid_app_status s' = true /\
    find (fun x => app_id x =? aid) (applications st) = Some a /\
    getOpportunityById st (opportunityId a) = Some o /\
    (role u = "Admin" \/ (role u = "Company" /\ companyId o = Some (u_id u))) /\
    c = 200 /\
    a' = mkApplication (app_id a) (lpId a) (lpName a) (lpEmail a) (opportunityId a)
           (opportunityTitle a) (app_companyId a) (app_companyName a) s'
           (app_createdAt a) (now st) /\
    find (fun x => app_id x =? aid) (applications st') = Some a' /\
    opportunities st' = opportunities st.
Proof.
  intros st uid aid s c a' st' H. unfold Opportunities.updateApplicationStatus in H.
  destruct (getUserById st uid) as [u|] eqn:Hu; [|discriminate].
  destruct (negb (String.eqb (role u) "Company") && negb (String.eqb (role u) "Admin"))
    eqn:Hg; [discriminate|].
  destruct s as [s'|]; [|discriminate].
  destruct (negb (JS.truthy s') || negb (Opportunities.valid_app_status s')) eqn:Hv;
    [discriminate|].
  apply orb_false_iff in Hv as [_ Hv]. apply negb_false_iff in Hv.
  destruct (find (fun a => app_id a =? aid) (applications st)) as [a|] eqn:Ha; [|discriminate].
  destruct (getOpportunityById st (opportunityId a)) as [o|] eqn:Ho; [|discriminate].
  destruct (Opportunities.denied o u) eqn:Hd; [discriminate|].
  unfold updateApplication in H.
  destruct (replace_first_app_some aid
      (fun a => mkApplication (app_id a) (lpId a) (lpName a) (lpEmail a)
               (opportunityId a) (opportunityTitle a) (app_companyId a)
               (app_companyName a) s' (app_createdAt a) (now st))
      (applications st) a (fun x => eq_refl) Ha) as (H1 & H2 & _).
  destruct (replace_first_app _ _ _) as [[x|] l] eqn:E; [|discriminate].
  simpl in H1, H2. inversion H1; subst x. inversion H; subst; clear H.
  exists u, a, o, s'. repeat split; try assumption; try reflexivity.
  destruct (denied_false o u Hd) as [Hc|Hadm]; [|left; exact Hadm].
  destruct (String.eqb_spec (role u) "Admin") as [Hadm|Hadm]; [left; exact Hadm|].
  right. split; [|exact Hc].
  apply andb_false_iff in Hg as [Hg|Hg]; [apply negb_eqb_false in Hg; exact Hg|discriminate].
Qed.

(** ** The extra properties at concrete inputs *)

Import Samples.

Lemma createOpportunity_lookup_witness :
  Forall (fun k => k < 2 ^ 53) (map id (opportunities st0)) /\
  getOpportunityById (snd (createOpportunity st0 data1)) 2 =
    Some (fst (createOpportunity st0 data1)) /\
  getOpportunityById (snd (createOpportunity st0 data1)) 1 = Some opp1.
Proof.
  assert (Hb : Forall (fun k => k < 2 ^ 53) (map id (opportunities st0)))
    by (simpl; repeat constructor; lia).
  split; [exact Hb|]. split.
  - rewrite (createOpportunity_lookup st0 data1 2 Hb). reflexivity.
  - rewrite (createOpportunity_lookup st0 data1 1 Hb). reflexivity.
Defined.

Lemma updateOpportunity_effect_witness :
  getOpportunityById st0 1 = Some opp1 /\ up_id patch_owner = None /\
  getOpportunityById (snd (updateOpportunity st0 1 patch_owner)) 1 =
    Some (merge opp1 patch_owner 200).
Proof.
  split; [reflexivity|]. split; [reflexivity|].
  exact (proj1 (proj2 (proj2 (updateOpportunity_effect st0 1 patch_owner) opp1
                        eq_refl eq_refl))).
Defined.

Lemma updateApplication_effect_witness :
  find (fun a => app_id a =? 1) (applications st_applied) = Some app_b1 /\
  fst (updateApplication st_applied 1 "accepted") =
    Some (mkApplication 1 2 "Ben Bose" "ben@lp.io" 1 "Advisor Needed" (Some 1) "Acme"
            "accepted" 200 300).
Proof.
  split; [reflexivity|].
  exact (proj1 (proj2 (updateApplication_effect st_applied 1 "accepted") app_b1 eq_refl)).
Defined.

Lemma company_createOpportunity_effect_witness :
  exists o st', Handlers.createOpportunity companyName_of st0 1 body1 = (Ok 201 o, st') /\
    companyId o = Some 1 /\ status o = "open" /\
    opportunities st' = (opportunities st0 ++ [o])%list.
Proof.
  destruct (Handlers.createOpportunity companyName_of st0 1 body1) as [[c o|c m] st'] eqn:E;
    [|exfalso; vm_compute in E; discriminate].
  destruct (proj2 (company_createOpportunity_effect companyName_of st0 1 body1) c o st' E)
    as (u & t & re & Hu & _ & Hc & _ & _ & _ & _ & _ & _ & Hco & Hs & _ & _ & Hops & _).
  subst c. vm_compute in Hu. injection Hu as <-.
  exists o, st'. split; [reflexivity|]. split; [exact Hco|]. split; assumption.
Defined.

Lemma getOpportunityApplications_result_witness :
  getUserById st_applied 9 = Some admin /\ role admin = "Admin" /\
  getOpportunityById st_applied 1 = Some opp1 /\
  fst (Handlers.getOpportunityApplications st_applied 9 1) = Ok 200 [app_b1].
Proof.
  split; [reflexivity|]. split; [reflexivity|]. split; [reflexivity|].
  rewrite (proj2 (proj2 (getOpportunityApplications_result st_applied 9 1)) admin opp1
             eq_refl eq_refl eq_refl).
  reflexivity.
Defined.

Lemma admin_updateOpportunityStatus_effect_witness :
  getOpportunityById st0 1 = Some opp1 /\ Admin.valid_status "closed" = true /\
  fst (Opportunities.applyToOpportunity (snd (Admin.updateOpportunityStatus st0 1 (Some "closed"))) 2 1) =
    Err 400 "This opportunity is not open for applications".
Proof.
  split; [reflexivity|]. split; [reflexivity|].
  pose proof (proj2 (proj2 (admin_updateOpportunityStatus_effect st0 1 "closed")) opp1
                eq_refl eq_refl) as H.
  cbv zeta in H. destruct H as (_ & _ & _ & _ & H).
  apply (H ltac:(discriminate) 2 lpB); reflexivity.
Defined.




Lemma admin_syncApplicantCounts_effect_witness :
  NoDup (map id (opportunities st_applied)) /\
  exists res, fst (Admin.syncApplicantCounts st_applied) = Ok 200 res /\
    map Admin.actualCount res = [1].
Proof.
  assert (ND : NoDup (map id (opportunities st_applied))) by (repeat constructor; simpl; tauto).
  split; [exact ND|].
  destruct (admin_syncApplicantCounts_effect st_applied ND) as (res & H1 & _ & _ & H4 & _).
  exists res. split; [exact H1|]. rewrite H4. reflexivity.
Defined.


Lemma expressInterest_no_application_witness :
  getUserById st0 2 = Some lpB /\ getOpportunityById st0 1 = Some opp1 /\
  fst (Interest.expressInterest st0 2 1) = Ok 200 (1, 2) /\
  applications (snd (Interest.expressInterest st0 2 1)) = [].
Proof.
  pose proof (expressInterest_no_application st0 2 1) as H. cbv zeta in H.
  destruct H as (Ha & _ & _ & Hok).
  split; [reflexivity|]. split; [reflexivity|].
  split; [apply (Hok lpB opp1); reflexivity|]. rewrite Ha. reflexivity.
Defined.

Lemma apply_success_effect_witness :
  exists aid st', Opportunities.applyToOpportunity st0 2 1 = (Ok 201 aid, st') /\
    hasApplied st' 2 1 = true /\ count st' 1 = 1.
Proof.
  destruct (Opportunities.applyToOpportunity st0 2 1) as [[c aid|c m] st'] eqn:E;
    [|exfalso; vm_compute in E; discriminate].
  destruct (apply_success_effect st0 2 1 c aid st' E) as (Hc & _ & Hh & Hn & _).
  subst c. exists aid, st'. split; [reflexivity|]. split; [exact Hh|]. rewrite Hn. reflexivity.
Defined.

Lemma listing_hides_own_witness :
  In (opp1, None) (fst (Listing.getOpportunities st0 3 q_none)) /\ companyId opp1 <> Some 3.
Proof.
  assert (Hin : In (opp1, None) (fst (Listing.getOpportunities st0 3 q_none)))
    by (vm_compute; left; reflexivity).
  split; [exact Hin|].
  exact (proj1 (listing_hides_own st0 3 q_none companyD opp1 None eq_refl eq_refl Hin)).
Defined.

Lemma company_listing_own_witness :
  exists l st', Listing.getCompanyOpportunities st0 1 = (Ok 200 l, st') /\
    map id l = [1] /\ (forall o, In o l -> companyId o = Some 1).
Proof.
  destruct (Listing.getCompanyOpportunities st0 1) as [[c l|c m] st'] eqn:E;
    [|exfalso; vm_compute in E; discriminate].
  assert (Hc : c = 200) by (vm_compute in E; congruence). subst c.
  destruct (company_listing_own st0 1 l st' E) as (u & _ & _ & Hp & Hown & _).
  exists l, st'. split; [reflexivity|]. split; [|exact Hown].
  apply Permutation_length_1_inv, Permutation_sym. exact Hp.
Defined.

Lemma updateApplicationStatus_success_witness :
  exists a' st', Opportunities.updateApplicationStatus st_applied 1 1 (Some "accepted") = (Ok 200 a', st') /\
    app_status a' = "accepted" /\ app_updatedAt a' = 300 /\
    find (fun x => app_id x =? 1) (applications st') = Some a'.
Proof.
  destruct (Opportunities.updateApplicationStatus st_applied 1 1 (Some "accepted"))
    as [[c a'|c m] st'] eqn:E; [|exfalso; vm_compute in E; discriminate].
  destruct (updateApplicationStatus_success st_applied 1 1 (Some "accepted") c a' st' E)
    as (u & a & o & s' & _ & Hs & _ & _ & _ & _ & Hc & Ha' & Hf & _).
  injection Hs as <-. subst c a'. eexists; exists st'. split; [reflexivity|].
  split; [reflexivity|]. split; [reflexivity|]. exact Hf.
Defined.
